(** * Nepal Penal Code RAG assistant: retrieval, citation and answer parsing

    A shallow embedding of [app.py]: the retrieval loop of [search_law]
    (deduplication, inline citations, context assembly, session-state
    writes), [format_citation], the corpus loader [load_embeddings] with the
    start-up gate of [main], and the [Answer:]/[Source:] parse of [main].

    Python [str] values are lists of Unicode code points.  JSON metadata
    records are finite maps from keys to scalar JSON values.  The sentence
    encoder, the FAISS index and the file system are outside the program:
    the encoder and the index are passed in as functions, and a file read is
    given by its outcome. *)

From Stdlib Require Import ZArith NArith String Ascii DecimalString Sorted.
From stdpp Require Import base decidable option list gmap sets strings.

Local Open Scope Z_scope.

(** ** Exceptions *)

Inductive exn : Type :=
  | IndexError
  | KeyError
  | ValueError
  | AssertionError
  | AttributeError
  | OSError.

Inductive outcome (A : Type) : Type :=
  | Ok (a : A)
  | Raise (e : exn).
Arguments Ok {A} a.
Arguments Raise {A} e.

#[global] Instance outcome_bind : MBind outcome :=
  λ A B f m, match m with
             | Ok a => f a
             | Raise e => Raise e
             end.

#[global] Instance outcome_ret : MRet outcome := λ A a, Ok a.

Definition is_ok {A : Type} (m : outcome A) : Prop := ∃ a, m = Ok a.

(** ** Python strings *)

Abbreviation pystr := (list N).

(** A literal of the source, as code points. *)
Definition py (s : string) : pystr :=
  (λ a, N_of_ascii a) <$> list_ascii_of_string s.

(** [s.startswith(m)]. *)
Fixpoint startswith (m s : pystr) : bool :=
  match m, s with
  | [], _ => true
  | _ :: _, [] => false
  | a :: m', b :: s' => if decide (a = b) then startswith m' s' else false
  end.

(** [s.find(m)]: the lowest position where [m] occurs. *)
Fixpoint find (m s : pystr) : option nat :=
  if startswith m s then Some 0%nat
  else match s with
       | [] => None
       | _ :: s' => S <$> find m s'
       end.

(** [m in s]. *)
Definition contains (m s : pystr) : bool :=
  match find m s with Some _ => true | None => false end.

(** The scan of [s.split(sep)]: [skip] counts the characters of a matched
    separator still to pass, [cur] is the piece being read, reversed. *)
Fixpoint split_scan (sep : pystr) (skip : nat) (cur s : pystr) : list pystr :=
  match s with
  | [] => [rev cur]
  | c :: s' =>
      match skip with
      | S n => split_scan sep n cur s'
      | O =>
          if startswith sep s
          then rev cur :: split_scan sep (length sep - 1) [] s'
          else split_scan sep 0 (c :: cur) s'
      end
  end.

(** [s.split(sep)]; an empty separator is a [ValueError]. *)
Definition split (sep s : pystr) : outcome (list pystr) :=
  match sep with
  | [] => Raise ValueError
  | _ :: _ => Ok (split_scan sep 0 [] s)
  end.

(** [l[i]] on a Python list, with negative indices counted from the end. *)
Definition py_getitem {A : Type} (l : list A) (i : Z) : outcome A :=
  let n := Z.of_nat (length l) in
  let j := if i <? 0 then i + n else i in
  if (0 <=? j) && (j <? n)
  then match l !! Z.to_nat j with
       | Some a => Ok a
       | None => Raise IndexError
       end
  else Raise IndexError.

(** [str.isspace] on one code point. *)
Definition isspace (c : N) : bool :=
  ((9 <=? c) && (c <=? 13) || (28 <=? c) && (c <=? 32)
   || (c =? 133) || (c =? 160) || (c =? 5760)
   || (8192 <=? c) && (c <=? 8202)
   || (c =? 8232) || (c =? 8233) || (c =? 8239) || (c =? 8287)
   || (c =? 12288))%N.

Fixpoint lstrip (s : pystr) : pystr :=
  match s with
  | [] => []
  | c :: s' => if isspace c then lstrip s' else s
  end.

Definition rstrip (s : pystr) : pystr := rev (lstrip (rev s)).

(** [s.strip()]. *)
Definition strip (s : pystr) : pystr := rstrip (lstrip s).

(** [sep.join(l)]. *)
Fixpoint join (sep : pystr) (l : list pystr) : pystr :=
  match l with
  | [] => []
  | [x] => x
  | x :: l' => x ++ sep ++ join sep l'
  end.

(** ** JSON values and provision records *)

Inductive value : Type :=
  | VNone
  | VBool (b : bool)
  | VInt (z : Z)
  | VStr (s : pystr).

(** [bool(v)]. *)
Definition truthy (v : value) : bool :=
  match v with
  | VNone => false
  | VBool b => b
  | VInt z => negb (z =? 0)
  | VStr s => match s with [] => false | _ :: _ => true end
  end.

(** [str(v)], as an f-string field renders it. *)
Definition str_of (v : value) : pystr :=
  match v with
  | VNone => py "None"
  | VBool true => py "True"
  | VBool false => py "False"
  | VInt z => py (NilZero.string_of_int (Z.to_int z))
  | VStr s => s
  end.

(** [a == b]. *)
Definition py_eq (a b : value) : bool :=
  match a, b with
  | VNone, VNone => true
  | VStr s, VStr t => bool_decide (s = t)
  | VBool x, VBool y => bool_decide (x = y)
  | VInt x, VInt y => x =? y
  | VBool x, VInt y | VInt y, VBool x => (if x then 1 else 0) =? y
  | _, _ => false
  end.

(** [x in l] on a list. *)
Definition py_in (x : value) (l : list value) : bool := existsb (py_eq x) l.

(** A metadata record: a [dict] decoded from a JSON object. *)
Abbreviation item := (gmap pystr value).

(** [item.get(k)] *)
Definition get (it : item) (k : string) : value := default VNone (it !! py k).

(** [item.get(k, d)] *)
Definition get_or (it : item) (k : string) (d : value) : value :=
  default d (it !! py k).

(** [item[k]] *)
Definition getitem (it : item) (k : string) : outcome value :=
  match it !! py k with
  | Some v => Ok v
  | None => Raise KeyError
  end.

(** ** [format_citation] *)

Definition CITATION_NOT_AVAILABLE : pystr := py "Citation not available".

(** The guard of the third [if]: [item.get('subsection') and
    item['subsection'] not in [None, '', 'null']]. *)
Definition subsection_guard (it : item) : outcome bool :=
  if truthy (get it "subsection")
  then v ← getitem it "subsection";
       Ok (negb (py_in v [VNone; VStr []; VStr (py "null")]))
  else Ok false.

(** The three appends shared by [format_citation] and the inline citation
    of [search_law]. *)
Definition citation_parts (it : item) : outcome (list pystr) :=
  let parts := [] in
  parts ← (if truthy (get it "chapter")
           then v ← getitem it "chapter";
                Ok (parts ++ [py "Chapter " ++ str_of v])
           else Ok parts);
  parts ← (if truthy (get it "section")
           then v ← getitem it "section";
                Ok (parts ++ [py "Section " ++ str_of v])
           else Ok parts);
  g ← subsection_guard it;
  if (g : bool)
  then v ← getitem it "subsection";
       Ok (parts ++ [py "Sub-section " ++ str_of v])
  else Ok parts.

Definition format_citation (it : item) : outcome pystr :=
  parts ← citation_parts it;
  match parts with
  | _ :: _ => Ok (join (py ", ") parts)
  | [] => Ok CITATION_NOT_AVAILABLE
  end.

(** ** [search_law] *)

Definition DEFAULT_K : Z := 6.

(** What [st.session_state] holds under a name. *)
Inductive ssval : Type :=
  | SStr (s : pystr)
  | SItems (l : list item).

Abbreviation session_state := (gmap string ssval).

(** The dedup key [f"{item.get('section', '')}-{item.get('subsection', '')}"]. *)
Definition section_key (it : item) : pystr :=
  str_of (get_or it "section" (VStr [])) ++ py "-"
  ++ str_of (get_or it "subsection" (VStr [])).

(** The first loop: walk [indices[0]], keep a record when its key is new. *)
Fixpoint dedup_loop (metadata : list item) (indices : list Z)
    (seen_sections : gset pystr) (retrieved_items : list item)
    : outcome (list item) :=
  match indices with
  | [] => Ok retrieved_items
  | idx :: rest =>
      if idx <? Z.of_nat (length metadata)
      then it ← py_getitem metadata idx;
           let key := section_key it in
           if decide (key ∉ seen_sections)
           then dedup_loop metadata rest ({[key]} ∪ seen_sections)
                  (retrieved_items ++ [it])
           else dedup_loop metadata rest seen_sections retrieved_items
      else dedup_loop metadata rest seen_sections retrieved_items
  end.

(** One chunk [f"[{citation}] {item.get('text', '')}"]; the citation is the
    plain join, with no fallback. *)
Definition chunk_of (it : item) : outcome pystr :=
  citation_parts ← citation_parts it;
  let citation := join (py ", ") citation_parts in
  Ok (py "[" ++ citation ++ py "] " ++ str_of (get_or it "text" (VStr []))).

(** The second loop. *)
Fixpoint chunk_loop (retrieved_items : list item) (chunks : list pystr)
    : outcome (list pystr) :=
  match retrieved_items with
  | [] => Ok chunks
  | it :: rest => c ← chunk_of it; chunk_loop rest (chunks ++ [c])
  end.

Definition BLANK_LINE : pystr := [10%N; 10%N].

Section Retrieval.
(** [vec] is an embedding vector and [D] a distance; [sbert.encode] and
    [index.search] are the two library calls, the latter returning row 0 of
    its distance and index arrays. *)
Context {vec D : Type}.

Definition encoder : Type := pystr → vec.
Definition vindex : Type := vec → Z → list D * list Z.

Definition search_law (st : session_state) (query : pystr) (sbert : encoder)
    (index : vindex) (metadata : list item) (k : Z)
    : session_state * outcome pystr :=
  let q_emb := sbert query in
  let '(distances, indices) := index q_emb k in
  let body :=
    retrieved_items ← dedup_loop metadata indices ∅ [];
    chunks ← chunk_loop retrieved_items [];
    Ok (retrieved_items, chunks) in
  match body with
  | Ok (retrieved_items, chunks) =>
      let st := <["retrieved_items" := SItems retrieved_items]> st in
      let st := <["llm_context" := SStr (join BLANK_LINE chunks)]> st in
      (st, Ok (join BLANK_LINE chunks))
  | Raise e => (st, Raise e)
  end.
End Retrieval.

(** ** [load_embeddings] and the start-up gate of [main] *)

(** A loaded [numpy] array: its shape, and what its conversion to [float32]
    does, which the element type and the contents decide (an array of
    numbers converts, an array of words raises). The numbers themselves play
    no part in the control flow. *)
Record ndarray : Type := { shape : list nat; as_float32 : outcome unit }.

(** What [np.load] returns: an array, or for a zipped file the archive
    object, which has no [shape]. *)
Inductive np_object : Type :=
  | NdArray (a : ndarray)
  | NpzFile.

(** [x.shape] *)
Definition shape_of (x : np_object) : outcome (list nat) :=
  match x with
  | NdArray a => Ok (shape a)
  | NpzFile => Raise AttributeError
  end.

(** A FAISS flat index: its dimension and how many vectors it holds. *)
Record flat_index : Type := { index_d : Z; ntotal : nat }.

Definition IndexFlatL2 (dim : Z) : flat_index := {| index_d := dim; ntotal := 0 |}.

(** [index.add(x)]: [n, d = x.shape], [assert d == self.d], then
    [np.ascontiguousarray(x, dtype='float32')]. *)
Definition index_add (index : flat_index) (x : np_object) : outcome flat_index :=
  sh ← shape_of x;
  match sh with
  | [n; d] =>
      if decide (Z.of_nat d = index_d index)
      then _ ← (match x with
                | NdArray a => as_float32 a
                | NpzFile => Raise AttributeError
                end);
           Ok {| index_d := index_d index; ntotal := (ntotal index + n)%nat |}
      else Raise AssertionError
  | _ => Raise ValueError
  end.

(** What the page shows through [st.error]. *)
Inductive ui_error : Type :=
  | ErrorLoadingData (e : exn)
  | FailedToLoadDatabase.

(** [np_load] and [json_load] are the outcomes of [np.load(...)] and of
    [open(...)] with [json.load(f)]: a missing or unreadable file raises.
    The metadata is whatever [json.load] returned, of any type [M]: the
    loader hands it on without looking at it. *)
Definition load_embeddings {M : Type} (np_load : outcome np_object)
    (json_load : outcome M)
    : list ui_error * option (np_object * M * flat_index) :=
  let body :=
    emb ← np_load;
    meta ← json_load;
    sh ← shape_of emb;
    dim ← py_getitem sh 1;
    let index := IndexFlatL2 (Z.of_nat dim) in
    index ← index_add index emb;
    Ok (emb, meta, index) in
  match body with
  | Ok r => ([], Some r)
  | Raise e => ([ErrorLoadingData e], None)
  end.

Inductive startup (M : Type) : Type :=
  | Stopped (errors : list ui_error)
  | Serving (errors : list ui_error) (metadata : M) (index : flat_index).
Arguments Stopped {M} errors.
Arguments Serving {M} errors metadata index.

(** [main] up to [st.session_state.metadata = metadata]. *)
Definition main_startup {M : Type} (np_load : outcome np_object)
    (json_load : outcome M) : startup M :=
  let '(errors, r) := load_embeddings np_load json_load in
  match r with
  | None => Stopped (errors ++ [FailedToLoadDatabase])
  | Some (emb, metadata, index) => Serving errors metadata index
  end.

(** ** The answer parse of [main] *)

Definition ANSWER : pystr := py "Answer:".
Definition SOURCE : pystr := py "Source:".

(** The refusal sentence the prompt of [ask_llm] mandates. *)
Definition REFUSAL : pystr :=
  py "The provided sections of the National Penal Code, 2017 do not mention this.".

(** The [if] of lines 398-408: [Some (answer_text, source_text)] in the
    first branch, [None] when the raw answer is shown as it is. *)
Definition parse_answer (answer : pystr) : outcome (option (pystr * pystr)) :=
  if contains ANSWER answer && contains SOURCE answer
  then
    p ← split ANSWER answer;
    p ← py_getitem p 1;
    p ← split SOURCE p;
    p ← py_getitem p 0;
    let answer_text := strip p in
    source_text ←
      (if contains SOURCE answer
       then p ← split SOURCE answer; p ← py_getitem p 1; Ok (strip p)
       else Ok []);
    Ok (Some (answer_text, source_text))
  else Ok None.

(** The [st.markdown] calls of the same lines. *)
Definition render_answer (answer : pystr) : outcome (list pystr) :=
  r ← parse_answer answer;
  match r with
  | Some (answer_text, source_text) =>
      if (match source_text with [] => false | _ => true end)
         && negb (contains (py "Not specified") source_text)
      then Ok [answer_text; py "---"; py "**Source:** " ++ source_text]
      else Ok [answer_text]
  | None => Ok [answer]
  end.

(** ** The page: crashes and what is shown *)

(** How a run of the page can end early: an exception of the kinds above,
    a [TypeError], or a failure of the LLM client. *)
Inductive crash : Type :=
  | Exn (e : exn)
  | TypeError
  | ApiError (message : pystr).

Inductive run (A : Type) : Type :=
  | Done (a : A)
  | Crash (c : crash).
Arguments Done {A} a.
Arguments Crash {A} c.

#[global] Instance run_bind : MBind run :=
  λ A B f m, match m with
             | Done a => f a
             | Crash c => Crash c
             end.

Definition lift {A : Type} (m : outcome A) : run A :=
  match m with
  | Ok a => Done a
  | Raise e => Crash (Exn e)
  end.

(** One call of the Streamlit display API. *)
Inductive ui_event : Type :=
  | Spinner (text : pystr)
  | Expander (label : pystr)
  | Markdown (body : pystr)
  | Warning (body : pystr)
  | InColumn (col : nat) (body : pystr).

(** A piece of the page script: what it has shown, and how it ended. *)
Inductive ui (A : Type) : Type :=
  | Ui (trace : list ui_event) (r : run A).
Arguments Ui {A} trace r.

#[global] Instance ui_bind : MBind ui :=
  λ A B f m, match m with
             | Ui t (Done a) => match f a with Ui t' r => Ui (t ++ t') r end
             | Ui t (Crash c) => Ui t (Crash c)
             end.

Definition emit (e : ui_event) : ui unit := Ui [e] (Done tt).

Definition eval {A : Type} (m : run A) : ui A := Ui [] m.

Definition trace_of {A : Type} (m : ui A) : list ui_event :=
  match m with Ui t _ => t end.

Definition result_of {A : Type} (m : ui A) : run A :=
  match m with Ui _ r => r end.

(** ** [ask_llm] *)

Definition LLM_MODEL : pystr := py "llama-3.1-8b-instant".

(** The prompt of [ask_llm] up to the law text. *)
Definition PROMPT_HEAD : pystr :=
  join [10%N]
    [ py "";
      py "You are an AI LEGAL ASSISTANT whose sole authority is the";
      py "National Penal Code of Nepal, 2017.";
      py "";
      py "This system operates under a Retrieval-Augmented Generation (RAG) framework.";
      py "The provided Law Text is the ONLY source of truth.";
      py "";
      py "======================";
      py "ABSOLUTE LEGAL RULES";
      py "======================";
      py "";
      py "1. You MUST answer strictly and exclusively from the provided Law Text.";
      py "2. You MUST NOT rely on prior knowledge, general law principles, or assumptions.";
      py "3. You MUST NOT add, infer, simplify, reinterpret, or generalize the law.";
      py "4. If the Law Text does NOT explicitly contain the answer, you MUST respond with a refusal.";
      py "5. Partial answers are NOT allowed.";
      py "6. Every legal statement MUST be directly supported by the Law Text.";
      py "7. You MUST preserve all legal conditions, exceptions, and provisos.";
      py "8. You MUST maintain a formal, neutral, legal tone.";
      py "9. You MUST cite the exact Chapter, Section, and Subsection if available.";
      py "10. Hallucination of law is STRICTLY PROHIBITED.";
      py "";
      py "======================";
      py "REFUSAL POLICY (MANDATORY)";
      py "======================";
      py "";
      py "You MUST refuse to answer if:";
      py "- The relevant legal provision is absent";
      py "- The Law Text is incomplete";
      py "- The question exceeds the scope of the provided sections";
      py "- The question asks for punishment, procedure, or interpretation not stated";
      py "";
      py "Refusal MUST use EXACT wording:";
      py "";
      [34%N] ++ py "The provided sections of the National Penal Code, 2017 do not mention this." ++ [34%N];
      py "";
      py "No alternative phrasing is permitted.";
      py "";
      py "======================";
      py "AUTHORITATIVE LAW TEXT";
      py "======================";
      py "";
      py "" ].

(** The prompt between the law text and the question. *)
Definition PROMPT_MID : pystr :=
  join [10%N]
    [ py "";
      py "";
      py "======================";
      py "USER QUESTION";
      py "======================";
      py "";
      py "" ].

(** The prompt after the question. *)
Definition PROMPT_TAIL : pystr :=
  join [10%N]
    [ py "";
      py "";
      py "======================";
      py "RESPONSE FORMAT (STRICT)";
      py "======================";
      py "";
      py "Answer:";
      py "<Precise, faithful legal explanation strictly grounded in the Law Text>";
      py "";
      py "Source:";
      py "<Exact Chapter / Section / Subsection OR " ++ [34%N] ++ py "Not specified in provided text" ++ [34%N] ++ py ">";
      py "" ].

(** The f-string of [ask_llm]. *)
Definition build_prompt (context question : pystr) : pystr :=
  PROMPT_HEAD ++ context ++ PROMPT_MID ++ question ++ PROMPT_TAIL.

(** The arguments of [client.chat.completions.create]; the temperature is
    the constant [TEMPERATURE = 0.0], written as the integer it equals. *)
Record chat_request : Type := {
  model : pystr;
  messages : list (pystr * pystr);
  temperature : Z;
  max_tokens : Z
}.

(** The LLM client: for a request, the [message.content] of each choice of
    the response ([None] when the API sends no content), or a failure. *)
Definition chat_client : Type := chat_request → run (list (option pystr)).

Definition ask_llm (client : chat_client) (context question : pystr)
    : run (option pystr) :=
  let prompt := build_prompt context question in
  choices ← client {| model := LLM_MODEL;
                      messages := [(py "user", prompt)];
                      temperature := 0;
                      max_tokens := 350 |};
  lift (py_getitem choices 0).

(** ** The display code of [main] *)

Definition SPINNER_SEARCH : pystr :=
  [128269%N] ++ py " Searching legal sections...".

Definition SPINNER_ANSWER : pystr :=
  [129300%N] ++ py " Generating legal answer...".

(** The expander label around the count. *)
Definition EXPANDER_HEAD : pystr :=
  [128218%N] ++ py " Retrieved Legal Sections (".

Definition EXPANDER_TAIL : pystr :=
  py " found)".

Definition NO_SECTIONS_FOUND : pystr :=
  py "No relevant legal sections found.".

Definition ANSWER_HEADING : pystr :=
  py "### " ++ [128221%N] ++ py " **Legal Answer**".

Definition ANSWER_DIV_OPEN : pystr :=
  py "<div class=" ++ [34%N] ++ py "legal-answer" ++ [34%N] ++ py ">".

Definition ANSWER_DIV_CLOSE : pystr :=
  py "</div>".

Definition CITATIONS_HEADING : pystr :=
  py "### " ++ [128203%N] ++ py " **Retrieved Citations**".

Definition ENTER_QUESTION_FIRST : pystr :=
  [9888%N; 65039%N] ++ py " Please enter a legal question first.".

Definition GROQ_KEY_MISSING : pystr :=
  [10060%N] ++ py " GROQ_API_KEY not found in environment variables".

Definition CLIENT_FAILED : pystr :=
  [10060%N] ++ py " Failed to initialize Groq client".

(** The citation box up to the citation. *)
Definition BOX_HEAD : pystr :=
  [10%N] ++ py "                    <div class=" ++ [34%N] ++ py "source-box"
  ++ [34%N] ++ py ">" ++ [10%N] ++ py "                    <strong>".

Definition BOX_MID : pystr :=
  py "</strong><br>" ++ [10%N] ++ py "                    <small>".

Definition BOX_TAIL : pystr :=
  py "...</small>" ++ [10%N] ++ py "                    </div>" ++ [10%N]
  ++ py "                    ".


(** [len(v)] and [v[:n]] on a JSON value: only a string has them. *)
Definition py_len (v : value) : run nat :=
  match v with
  | VStr s => Done (length s)
  | _ => Crash TypeError
  end.

Definition py_take (v : value) (n : nat) : run pystr :=
  match v with
  | VStr s => Done (take n s)
  | _ => Crash TypeError
  end.

(** The quoted text of line 384: the first 300 characters and an ellipsis
    when the text is longer, the text otherwise. *)
Definition text_preview (it : item) : run pystr :=
  n ← py_len (get_or it "text" (VStr []));
  if decide (300 < n)%nat
  then t ← py_take (get_or it "text" (VStr [])) 300;
       Done (py "> " ++ t ++ py "...")
  else Done (py "> " ++ str_of (get_or it "text" (VStr []))).

(** The body of the loop of lines 379-385. *)
Definition show_item (it : item) : ui unit :=
  citation ← eval (lift (format_citation it));
  _ ← emit (Markdown (py "**" ++ citation ++ py "**"));
  _ ← emit (Markdown (py "*" ++ str_of (get_or it "section_title" (VStr []))
                      ++ py "*"));
  preview ← eval (text_preview it);
  _ ← emit (Markdown preview);
  emit (Markdown (py "---")).

Fixpoint show_items (items : list item) : ui unit :=
  match items with
  | [] => Ui [] (Done tt)
  | it :: rest => _ ← show_item it; show_items rest
  end.

(** The HTML of one citation box, lines 418-424. *)
Definition citation_box (it : item) : run pystr :=
  citation ← lift (format_citation it);
  title ← py_take (get_or it "section_title" (VStr [])) 50;
  Done (BOX_HEAD ++ citation ++ BOX_MID ++ title ++ BOX_TAIL).

(** The loop of lines 416-424 from position [idx] on. *)
Fixpoint show_boxes (idx : nat) (items : list item) : ui unit :=
  match items with
  | [] => Ui [] (Done tt)
  | it :: rest =>
      html ← eval (citation_box it);
      _ ← emit (InColumn (idx mod 3) html);
      show_boxes (S idx) rest
  end.

(** The [st.markdown] calls of lines 398-408 for the answer of the LLM;
    [None] is not a string, so [in] raises. *)
Definition show_answer (answer : option pystr) : ui unit :=
  match answer with
  | None => Ui [] (Crash TypeError)
  | Some answer =>
      lines ← eval (lift (render_answer answer));
      Ui (Markdown <$> lines) (Done tt)
  end.

(** What a session entry holds when it is read as a list of records or as a
    string. *)
Definition items_of (st : session_state) (name : string) : list item :=
  match st !! name with
  | Some (SItems l) => l
  | _ => []
  end.

Definition text_of (st : session_state) (name : string) : pystr :=
  match st !! name with
  | Some (SStr s) => s
  | _ => []
  end.

(** Lines 376-424, after the retrieval has stored its result in [st]. *)
Definition show_results (st : session_state) (client : chat_client)
    (query : pystr) : ui unit :=
  let retrieved_items := items_of st "retrieved_items" in
  _ ← emit (Expander (EXPANDER_HEAD
                      ++ str_of (VInt (Z.of_nat (length retrieved_items)))
                      ++ EXPANDER_TAIL));
  _ ← (match retrieved_items with
       | _ :: _ => show_items retrieved_items
       | [] => emit (Warning NO_SECTIONS_FOUND)
       end);
  _ ← emit (Spinner SPINNER_ANSWER);
  answer ← eval (ask_llm client (text_of st "llm_context") query);
  _ ← emit (Markdown ANSWER_HEADING);
  _ ← emit (Markdown ANSWER_DIV_OPEN);
  _ ← show_answer answer;
  _ ← emit (Markdown ANSWER_DIV_CLOSE);
  match retrieved_items with
  | _ :: _ =>
      _ ← emit (Markdown CITATIONS_HEADING);
      show_boxes 0 (take 6 retrieved_items)
  | [] => Ui [] (Done tt)
  end.

Section Page.
Context {vec D : Type}.

(** Lines 369-427: [search_clicked] and [query] are what the button and the
    text input returned in this run. A [k_value] entry, were there one,
    would be a string or a list of records, which the index search rejects
    with a [TypeError]. *)
Definition process_query (st : session_state) (search_clicked : bool)
    (query : pystr) (sbert : @encoder vec) (index : @vindex vec D)
    (metadata : list item) (client : chat_client)
    : session_state * ui unit :=
  if search_clicked && truthy (VStr query)
  then
    let st := <["user_query" := SStr query]> st in
    match st !! "k_value" with
    | Some _ => (st, Ui [Spinner SPINNER_SEARCH] (Crash TypeError))
    | None =>
        match search_law st query sbert index metadata DEFAULT_K with
        | (st, Ok context) =>
            (st, _ ← emit (Spinner SPINNER_SEARCH); show_results st client query)
        | (st, Raise e) => (st, Ui [Spinner SPINNER_SEARCH] (Crash (Exn e)))
        end
    end
  else if search_clicked && negb (truthy (VStr query))
  then (st, emit (Warning ENTER_QUESTION_FIRST))
  else (st, Ui [] (Done tt)).
End Page.

(** ** Session defaults, sidebar buttons and corpus statistics *)

(** [if name not in st.session_state: st.session_state[name] = v]. *)
Definition set_default (name : string) (v : ssval) (st : session_state)
    : session_state :=
  match st !! name with
  | Some _ => st
  | None => <[name := v]> st
  end.

(** Lines 319-324. *)
Definition init_session_state (st : session_state) : session_state :=
  let st := set_default "user_query" (SStr []) st in
  let st := set_default "retrieved_items" (SItems []) st in
  set_default "llm_context" (SStr []) st.

(** The sample questions of the sidebar. *)
Definition sample_questions : list pystr :=
  [ py "What is the definition of 'public servant'?";
    py "What constitutes murder?";
    py "What is the punishment for theft?";
    py "Explain the right of private defense";
    py "What are the types of punishment available?";
    py "What is considered sedition?";
    py "How is imprisonment for life computed?" ].

(** The loop of lines 269-272: [clicked i] tells whether the button of
    sample question [i] returned true; the first such button stores its
    question and asks for a rerun, which ends the loop. *)
Fixpoint sample_buttons (questions : list pystr) (i : nat)
    (clicked : nat → bool) (st : session_state) : session_state * bool :=
  match questions with
  | [] => (st, false)
  | q :: rest =>
      if clicked i
      then (<["user_query" := SStr q]> st, true)
      else sample_buttons rest (S i) clicked st
  end.

(** [set(l)] for JSON values, as the list of its members in order of first
    appearance: a value equal to a member is not added again. *)
Fixpoint py_set_from (seen l : list value) : list value :=
  match l with
  | [] => seen
  | x :: rest =>
      if py_in x seen
      then py_set_from seen rest
      else py_set_from (seen ++ [x]) rest
  end.

(** [len(set([item.get('chapter', '') for item in metadata]))], lines 251
    and 444. *)
Definition count_chapters (metadata : list item) : nat :=
  length (py_set_from [] ((λ it, get_or it "chapter" (VStr [])) <$> metadata)).

(** * Notions used in the statements *)

(** The text before the first occurrence of [sep] (all of [s] without one),
    and the text after it. *)
Definition before_first (sep s : pystr) : pystr :=
  match find sep s with
  | Some i => take i s
  | None => s
  end.

Definition after_first (sep s : pystr) : pystr :=
  match find sep s with
  | Some i => drop (i + length sep) s
  | None => []
  end.

(** What [parse_answer] yields, read through first occurrences. *)
Definition parse_cut (answer : pystr) : option (pystr * pystr) :=
  if contains ANSWER answer && contains SOURCE answer
  then Some
         (strip (before_first SOURCE
                   (before_first ANSWER (after_first ANSWER answer))),
          strip (before_first SOURCE (after_first SOURCE answer)))
  else None.

(** The markers: neither starts again inside itself, and neither contains
    the first character of the other. *)
Definition A_tail : pystr := py "nswer:".
Definition S_tail : pystr := py "ource:".

(** The parse as the specification words it: cut at the first occurrence of
    each marker, the answer being the text between the two and the source
    all that follows [Source:]. *)
Definition parse_spec (answer : pystr) : option (pystr * pystr) :=
  match find ANSWER answer, find SOURCE answer with
  | Some i, Some j =>
      let a := (i + length ANSWER)%nat in
      Some (strip (take (j - a) (drop a answer)),
            strip (drop (j + length SOURCE) answer))
  | _, _ => None
  end.

(** The hits the first loop looks at: the records of the neighbor indices
    that pass the guard, in the order of the search. *)
Fixpoint resolve (metadata : list item) (indices : list Z)
    : outcome (list item) :=
  match indices with
  | [] => Ok []
  | idx :: rest =>
      if idx <? Z.of_nat (length metadata)
      then it ← py_getitem metadata idx;
           hits ← resolve metadata rest;
           Ok (it :: hits)
      else resolve metadata rest
  end.

(** The first loop once every record is in hand. *)
Fixpoint keep_first (hits : list item) (seen : gset pystr) (acc : list item)
    : list item :=
  match hits with
  | [] => acc
  | it :: rest =>
      if decide (section_key it ∉ seen)
      then keep_first rest ({[section_key it]} ∪ seen) (acc ++ [it])
      else keep_first rest seen acc
  end.

(** One part of a citation: the label and the value when the field is
    shown, nothing otherwise. *)
Definition label (prefix : string) (v : value) (shown : bool) : list pystr :=
  if shown then [py prefix ++ str_of v] else [].

(** Whether the record has a sub-section to cite. *)
Definition subsection_shown (it : item) : bool :=
  truthy (get it "subsection")
  && negb (py_in (get it "subsection") [VNone; VStr []; VStr (py "null")]).

(** The parts of a citation, fields that are not there left out. *)
Definition citation_labels (it : item) : list pystr :=
  label "Chapter " (get it "chapter") (truthy (get it "chapter"))
  ++ label "Section " (get it "section") (truthy (get it "section"))
  ++ label "Sub-section " (get it "subsection") (subsection_shown it).

(** A field that is missing, [null] or the empty string. *)
Definition absent (it : item) (k : string) : Prop :=
  it !! py k = None ∨ it !! py k = Some VNone ∨ it !! py k = Some (VStr []).

(** One block of the context. *)
Definition block (it : item) : pystr :=
  py "[" ++ join (py ", ") (citation_labels it) ++ py "] "
  ++ str_of (get_or it "text" (VStr [])).

(** The state a successful retrieval leaves behind. *)
Definition stored (st : session_state) (retained : list item)
    (context : pystr) : session_state :=
  <["llm_context" := SStr context]>
    (<["retrieved_items" := SItems retained]> st).

(** Whether the specification counts a field as there: it is not missing,
    not [null] and not the empty string. *)
Definition there (it : item) (k : string) : bool :=
  match it !! py k with
  | None | Some VNone | Some (VStr []) => false
  | Some _ => true
  end.

(** Whether a field is the string [null]. *)
Definition null_word (it : item) (k : string) : bool :=
  match it !! py k with
  | Some (VStr s) => bool_decide (s = py "null")
  | _ => false
  end.

(** The citation as the specification words it: the parts of the fields that
    are there, the sub-section being left out also when it is the string
    [null], joined by a comma and a space; the marker when there is none. *)
Definition citation_spec_labels (it : item) : list pystr :=
  label "Chapter " (get it "chapter") (there it "chapter")
  ++ label "Section " (get it "section") (there it "section")
  ++ label "Sub-section " (get it "subsection")
       (there it "subsection" && negb (null_word it "subsection")).

Definition citation_as_specified (it : item) : pystr :=
  match citation_spec_labels it with
  | [] => py "Citation not available"
  | _ :: _ => join (py ", ") (citation_spec_labels it)
  end.

(** A field that is missing, [null] or a string. *)
Definition text_or_null (it : item) (k : string) : Prop :=
  it !! py k = None ∨ it !! py k = Some VNone ∨ ∃ s, it !! py k = Some (VStr s).

(** A record whose chapter is the number 0. *)
Definition rec_0_41 : item :=
  {[ py "chapter" := VInt 0; py "section" := VStr (py "41") ]}.

(** The citation [format_citation] displays. *)
Definition citation_shown (it : item) : pystr :=
  match citation_labels it with
  | [] => py "Citation not available"
  | _ :: _ => join (py ", ") (citation_labels it)
  end.

(** A record whose section title is a string (or is missing, which reads as
    the empty string), and that title. *)
Definition has_title (it : item) : Prop :=
  ∃ t, get_or it "section_title" (VStr []) = VStr t.

Definition title_of (it : item) : pystr :=
  match get_or it "section_title" (VStr []) with
  | VStr t => t
  | _ => []
  end.

(** The citation box of a record: its citation and the first 50 characters
    of its title, followed by the dots of the markup. *)
Definition box_html (it : item) : pystr :=
  BOX_HEAD ++ citation_shown it ++ BOX_MID ++ take 50 (title_of it) ++ BOX_TAIL.

Definition is_box (e : ui_event) : Prop := ∃ col body, e = InColumn col body.

(** A record whose text is a string (or is missing, which reads as the empty
    string). *)
Definition has_text (it : item) : Prop :=
  ∃ s, get_or it "text" (VStr []) = VStr s.

Definition is_Markdown (e : ui_event) : Prop := ∃ body, e = Markdown body.

(** ** A small corpus *)

Definition rec_41 : item :=
  {[ py "section" := VStr (py "41"); py "subsection" := VNone;
     py "text" := VStr (py "Murder is...") ]}.

Definition rec_41_1 : item :=
  {[ py "section" := VStr (py "41"); py "subsection" := VStr (py "1");
     py "text" := VStr (py "Exception...") ]}.

Definition rec_99 : item :=
  {[ py "section" := VStr (py "99"); py "subsection" := VNone;
     py "text" := VStr (py "Theft is...") ]}.

Definition rec_41_null : item :=
  {[ py "section" := VStr (py "41"); py "subsection" := VStr (py "null");
     py "text" := VStr (py "Murder, restated") ]}.

Definition rec_5_41 : item :=
  {[ py "chapter" := VStr (py "5"); py "section" := VStr (py "41");
     py "subsection" := VNone ]}.

(** A second chunk of section 41. *)
Definition rec_41_b : item :=
  {[ py "section" := VStr (py "41"); py "subsection" := VNone;
     py "text" := VStr (py "...continued") ]}.

Definition rec_20_241_2 : item :=
  {[ py "chapter" := VStr (py "20"); py "section" := VStr (py "241");
     py "subsection" := VStr (py "2"); py "text" := VStr (py "Theft...") ]}.

Definition corpus : list item := [rec_41; rec_41_1; rec_99].

Definition chunked : list item := [rec_41; rec_41_b; rec_99].

Definition q_murder : pystr := py "What constitutes murder?".

Definition unit_sbert : @encoder unit := λ _, tt.

(** An index over three vectors: it pads with [-1] past the third
    neighbor, as FAISS does. *)
Definition corpus_index : @vindex unit Z :=
  λ _ k, (take (Z.to_nat k) [2; 5; 9; 340282346638528859811704183484516925440],
          take (Z.to_nat k) [0; 1; 2; -1]).

(** The dedup key as the specification words it: the section with the
    sub-section, where [null], the empty string and the string [null] all
    stand for no sub-section. *)
Definition normalized_subsection (it : item) : option value :=
  match it !! py "subsection" with
  | None | Some VNone => None
  | Some (VStr s) =>
      if bool_decide (s = [] ∨ s = py "null") then None else Some (VStr s)
  | Some v => Some v
  end.

Definition normalized_key (it : item) : option value * option value :=
  (it !! py "section", normalized_subsection it).

(** * Properties *)

(** ** Strings: first occurrences and [split] *)

Lemma startswith_app m t : startswith m (m ++ t) = true.
Proof. induction m as [|a m IH]; simpl; [done|]. by rewrite decide_True. Qed.

Lemma startswith_cons_inv a m b s :
  startswith (a :: m) (b :: s) = true → a = b ∧ startswith m s = true.
Proof. simpl. case_decide; [done|discriminate]. Qed.

Lemma find_nil_sep_nonempty m : m ≠ [] → find m [] = None.
Proof. by destruct m. Qed.

Lemma contains_false_inv m c s :
  contains m (c :: s) = false →
  startswith m (c :: s) = false ∧ contains m s = false.
Proof.
  unfold contains. cbn [find].
  destruct (startswith m (c :: s)); [done|].
  by destruct (find m s).
Qed.

Lemma contains_false_nonempty m s : contains m s = false → m ≠ [].
Proof. intros H ->. by destruct s. Qed.

Lemma split_scan_skip sep n cur s :
  split_scan sep n cur s = split_scan sep 0 cur (drop n s).
Proof.
  revert n. induction s as [|c s IH]; intros [|n]; try done.
  simpl. apply IH.
Qed.

Lemma split_scan_None sep cur s :
  find sep s = None → split_scan sep 0 cur s = [rev cur ++ s].
Proof.
  revert cur. induction s as [|c s IH]; intros cur; simpl.
  - intros _. by rewrite app_nil_r.
  - destruct (startswith sep (c :: s)); [done|].
    destruct (find sep s); [done|]. intros _.
    rewrite IH by done. simpl. by rewrite <- app_assoc.
Qed.

Lemma split_scan_Some sep cur s i :
  sep ≠ [] → find sep s = Some i →
  split_scan sep 0 cur s
  = (rev cur ++ take i s) :: split_scan sep 0 [] (drop (i + length sep) s).
Proof.
  intros Hsep. revert cur i. induction s as [|c s IH]; intros cur i.
  - by rewrite find_nil_sep_nonempty.
  - cbn [find split_scan]. destruct (startswith sep (c :: s)).
    + intros [= <-]. rewrite split_scan_skip. simpl. rewrite app_nil_r.
      destruct sep as [|a sep]; [done|]. simpl. by rewrite Nat.sub_0_r.
    + destruct (find sep s) as [j|]; [|done]. intros [= <-].
      rewrite (IH _ j) by done. simpl. by rewrite <- app_assoc.
Qed.

(** The first two pieces of a split are cut at the first two occurrences. *)
Lemma split_scan_head sep s :
  sep ≠ [] → split_scan sep 0 [] s !! 0%nat = Some (before_first sep s).
Proof.
  intros Hsep. unfold before_first. destruct (find sep s) as [i|] eqn:Hf.
  - by rewrite (split_scan_Some _ _ _ i).
  - by rewrite split_scan_None.
Qed.

Lemma split_scan_second sep s :
  sep ≠ [] → contains sep s = true →
  split_scan sep 0 [] s !! 1%nat
  = Some (before_first sep (after_first sep s)).
Proof.
  intros Hsep. unfold contains, after_first.
  destruct (find sep s) as [i|] eqn:Hf; [intros _|done].
  rewrite (split_scan_Some _ _ _ i) by done. simpl.
  by apply split_scan_head.
Qed.

Lemma py_getitem_nat {A} (l : list A) (i : nat) a :
  l !! i = Some a → py_getitem l (Z.of_nat i) = Ok a.
Proof.
  intros H. pose proof (lookup_lt_Some _ _ _ H) as Hlt.
  unfold py_getitem.
  replace (Z.of_nat i <? 0) with false by (symmetry; apply Z.ltb_ge; lia).
  replace (0 <=? Z.of_nat i) with true by (symmetry; apply Z.leb_le; lia).
  replace (Z.of_nat i <? Z.of_nat (length l)) with true
    by (symmetry; apply Z.ltb_lt; lia).
  simpl. by rewrite Nat2Z.id, H.
Qed.

Lemma py_getitem_0 {A} (l : list A) a :
  l !! 0%nat = Some a → py_getitem l 0 = Ok a.
Proof. exact (py_getitem_nat l 0 a). Qed.

Lemma py_getitem_1 {A} (l : list A) a :
  l !! 1%nat = Some a → py_getitem l 1 = Ok a.
Proof. exact (py_getitem_nat l 1 a). Qed.

Lemma ANSWER_nonempty : ANSWER ≠ [].
Proof. done. Qed.

Lemma SOURCE_nonempty : SOURCE ≠ [].
Proof. done. Qed.

Lemma split_marker sep s :
  sep ≠ [] → split sep s = Ok (split_scan sep 0 [] s).
Proof. by destruct sep. Qed.

Lemma parse_answer_cut answer : parse_answer answer = Ok (parse_cut answer).
Proof.
  unfold parse_answer, parse_cut.
  destruct (contains ANSWER answer) eqn:HA; [|done].
  destruct (contains SOURCE answer) eqn:HS; [|done].
  cbn [andb].
  rewrite !(split_marker ANSWER) by apply ANSWER_nonempty.
  rewrite !(split_marker SOURCE answer) by apply SOURCE_nonempty.
  cbn [mbind outcome_bind].
  rewrite (py_getitem_1 _ _ (split_scan_second _ _ ANSWER_nonempty HA)).
  rewrite (py_getitem_1 _ _ (split_scan_second _ _ SOURCE_nonempty HS)).
  cbn [mbind outcome_bind].
  rewrite (split_marker SOURCE) by apply SOURCE_nonempty.
  cbn [mbind outcome_bind].
  by rewrite (py_getitem_0 _ _ (split_scan_head _ _ SOURCE_nonempty)).
Qed.

(** Where a marker first occurs in a concatenation. *)
Lemma startswith_app_inv m p t :
  startswith m (p ++ t) = true →
  startswith m p = true ∨ ∃ m2, m = p ++ m2 ∧ startswith m2 t = true.
Proof.
  revert m. induction p as [|y p IH]; intros m H.
  - right. by exists m.
  - destruct m as [|a m]; [by left|].
    apply startswith_cons_inv in H as [-> H].
    destruct (IH _ H) as [Hp|(m2 & -> & Hm2)].
    + left. simpl. by rewrite decide_True.
    + right. by exists m2.
Qed.

Lemma startswith_refl m : startswith m m = true.
Proof. rewrite <- (app_nil_r m) at 2. apply startswith_app. Qed.

Lemma fmap_add_S (p : nat) (o : option nat) :
  S <$> ((λ i, p + i)%nat <$> o) = (λ i, S p + i)%nat <$> o.
Proof. by destruct o. Qed.

(** The head of [m] does not occur in [p]: no occurrence starts in [p]. *)
Lemma find_app_fresh m c m' p t :
  m = c :: m' → c ∉ p →
  find m (p ++ t) = (λ i, length p + i)%nat <$> find m t.
Proof.
  intros ->. induction p as [|y p IH]; intros Hc.
  - simpl. by destruct (find _ t).
  - apply not_elem_of_cons in Hc as [Hy Hp].
    change ((y :: p) ++ t) with (y :: (p ++ t)).
    cbn [find startswith]. rewrite decide_False by done.
    rewrite IH by done. apply fmap_add_S.
Qed.

(** [m] does not occur in [p], and what follows [p] starts with a character
    that [m] has at its head only, if at all: no occurrence starts in [p]. *)
Lemma find_app_absent m p x t :
  contains m p = false → x ∉ tail m →
  find m (p ++ x :: t) = (λ i, length p + i)%nat <$> find m (x :: t).
Proof.
  intros Hp Hx. induction p as [|y p IH].
  - simpl. by destruct (startswith m (x :: t)), (find m t).
  - apply contains_false_inv in Hp as [Hy Hp].
    change ((y :: p) ++ x :: t) with (y :: (p ++ x :: t)).
    cbn [find]. destruct (startswith m (y :: p ++ x :: t)) eqn:Hs.
    + exfalso.
      destruct (startswith_app_inv m (y :: p) (x :: t) Hs)
        as [Hin|(m2 & -> & Hm2)]; [congruence|].
      destruct m2 as [|z m2].
      * rewrite app_nil_r, startswith_refl in Hy. discriminate.
      * apply startswith_cons_inv in Hm2 as [-> _].
        apply Hx. simpl. apply elem_of_app. right. left.
    + rewrite IH by done. apply fmap_add_S.
Qed.

Lemma find_here m t : find m (m ++ t) = Some 0%nat.
Proof. destruct m; simpl; [by destruct t|]. by rewrite decide_True, startswith_app. Qed.

Lemma find_first_at m c m' pre t :
  m = c :: m' → c ∉ m' → contains m pre = false →
  find m (pre ++ m ++ t) = Some (length pre).
Proof.
  intros Hm Hc Hpre.
  assert (m ++ t = c :: (m' ++ t)) as -> by by rewrite Hm.
  rewrite find_app_absent; [|done|by rewrite Hm].
  assert (c :: (m' ++ t) = m ++ t) as -> by by rewrite Hm.
  rewrite find_here. simpl. f_equal. lia.
Qed.

Lemma contains_find_None m s : contains m s = false → find m s = None.
Proof. unfold contains. by destruct (find m s). Qed.

Lemma find_Some_contains m s i : find m s = Some i → contains m s = true.
Proof. unfold contains. by intros ->. Qed.

Lemma ANSWER_eq : ANSWER = 65%N :: A_tail.
Proof. reflexivity. Qed.

Lemma SOURCE_eq : SOURCE = 83%N :: S_tail.
Proof. reflexivity. Qed.

Lemma marker_fresh (c : N) (l : pystr) : bool_decide (c ∈ l) = false → c ∉ l.
Proof. apply bool_decide_eq_false. Qed.

Lemma A_not_in_A_tail : 65%N ∉ A_tail.
Proof. by apply marker_fresh. Qed.

Lemma S_not_in_S_tail : 83%N ∉ S_tail.
Proof. by apply marker_fresh. Qed.

Lemma A_not_in_SOURCE : 65%N ∉ SOURCE.
Proof. by apply marker_fresh. Qed.

Lemma S_not_in_ANSWER : 83%N ∉ ANSWER.
Proof. by apply marker_fresh. Qed.

Lemma A_not_in_S_tail : 65%N ∉ S_tail.
Proof. by apply marker_fresh. Qed.

Lemma S_not_in_A_tail : 83%N ∉ A_tail.
Proof. by apply marker_fresh. Qed.

Section OneEach.
(** A response with text [pre], then [Answer:], text [mid], [Source:] and
    text [post]. *)
Variables pre mid post : pystr.
Hypothesis pre_A : contains ANSWER pre = false.
Hypothesis pre_S : contains SOURCE pre = false.
Hypothesis mid_A : contains ANSWER mid = false.
Hypothesis mid_S : contains SOURCE mid = false.
Hypothesis post_S : contains SOURCE post = false.

Let raw : pystr := pre ++ ANSWER ++ mid ++ SOURCE ++ post.

Lemma find_ANSWER_raw : find ANSWER raw = Some (length pre).
Proof. exact (find_first_at _ _ _ _ _ ANSWER_eq A_not_in_A_tail pre_A). Qed.

Lemma find_SOURCE_tail t :
  find SOURCE (mid ++ SOURCE ++ t) = Some (length mid).
Proof. exact (find_first_at _ _ _ _ _ SOURCE_eq S_not_in_S_tail mid_S). Qed.

Lemma find_SOURCE_raw :
  find SOURCE raw = Some (length pre + (length ANSWER + length mid))%nat.
Proof.
  unfold raw.
  change (ANSWER ++ ?t) with (65%N :: (A_tail ++ t)).
  rewrite find_app_absent; [|done|apply A_not_in_S_tail].
  change (65%N :: (A_tail ++ ?t)) with (ANSWER ++ t).
  rewrite (find_app_fresh SOURCE _ _ ANSWER _ SOURCE_eq S_not_in_ANSWER).
  by rewrite find_SOURCE_tail.
Qed.

Lemma after_first_ANSWER_raw :
  after_first ANSWER raw = mid ++ SOURCE ++ post.
Proof.
  unfold after_first. rewrite find_ANSWER_raw. unfold raw.
  rewrite <- drop_drop, drop_app_length. apply drop_app_length.
Qed.

Lemma after_first_SOURCE_raw : after_first SOURCE raw = post.
Proof.
  unfold after_first. rewrite find_SOURCE_raw. unfold raw.
  rewrite !(assoc_L (++)). apply drop_app_length'.
  rewrite !length_app. change (length SOURCE) with 7%nat.
  change (length ANSWER) with 7%nat. lia.
Qed.

(** The piece after the first [Answer:] still begins with [mid] and
    [Source:], whether or not [post] holds another [Answer:]. *)
Lemma before_first_ANSWER_tail :
  ∃ post', before_first ANSWER (mid ++ SOURCE ++ post) = mid ++ SOURCE ++ post'.
Proof.
  unfold before_first.
  change (SOURCE ++ post) with (83%N :: (S_tail ++ post)).
  rewrite find_app_absent; [|done|apply S_not_in_A_tail].
  change (83%N :: (S_tail ++ post)) with (SOURCE ++ post).
  rewrite (find_app_fresh ANSWER _ _ SOURCE _ ANSWER_eq A_not_in_SOURCE).
  destruct (find _ post) as [q|]; cbn [fmap option_fmap option_map].
  - exists (take q post).
    by rewrite take_app_add, (take_app_add SOURCE post q).
  - by exists post.
Qed.

Lemma parse_cut_one_each : parse_cut raw = Some (strip mid, strip post).
Proof.
  unfold parse_cut.
  rewrite (find_Some_contains _ _ _ find_ANSWER_raw).
  rewrite (find_Some_contains _ _ _ find_SOURCE_raw). cbn [andb].
  rewrite after_first_ANSWER_raw, after_first_SOURCE_raw.
  destruct before_first_ANSWER_tail as [post' ->].
  unfold before_first at 1. rewrite find_SOURCE_tail, take_app_length.
  unfold before_first. by rewrite (contains_find_None _ _ post_S).
Qed.
End OneEach.

Lemma parse_spec_one_each pre mid post :
  contains ANSWER pre = false → contains SOURCE pre = false →
  contains SOURCE mid = false →
  parse_spec (pre ++ ANSWER ++ mid ++ SOURCE ++ post)
  = Some (strip mid, strip post).
Proof.
  intros HA HS HmS. unfold parse_spec.
  rewrite find_ANSWER_raw, find_SOURCE_raw by done.
  do 2 f_equal.
  - rewrite <- drop_drop, drop_app_length, drop_app_length.
    replace (_ - _)%nat with (length mid) by lia. by rewrite take_app_length.
  - f_equal. rewrite !(assoc_L (++)). apply drop_app_length'.
    rewrite !length_app. lia.
Qed.

(** C2, as the code has it: the parse always returns; the answer is the
    text after the first [Answer:] up to the next [Answer:] or [Source:], and
    the source the text after the first [Source:] up to the next [Source:],
    both stripped; when [Answer:] occurs once, before the one [Source:], these
    are the text between the two markers and all the text after
    [Source:], as the specification reads. *)
Theorem parse_answer_pieces (answer pre mid post : pystr) :
  parse_answer answer = Ok (parse_cut answer)
  ∧ (contains ANSWER pre = false → contains SOURCE pre = false →
     contains ANSWER mid = false → contains SOURCE mid = false →
     contains SOURCE post = false →
     parse_answer (pre ++ ANSWER ++ mid ++ SOURCE ++ post)
     = Ok (Some (strip mid, strip post))
     ∧ parse_spec (pre ++ ANSWER ++ mid ++ SOURCE ++ post)
       = Some (strip mid, strip post)).
Proof.
  split; [apply parse_answer_cut|].
  intros HpA HpS HmA HmS HqS. split.
  - rewrite parse_answer_cut. f_equal. by apply parse_cut_one_each.
  - by apply parse_spec_one_each.
Qed.

Lemma parse_answer_pieces_witness :
  parse_answer
    (py "Sure. " ++ ANSWER ++ py " Theft is punishable. " ++ SOURCE
     ++ py " Chapter 20, Section 241 ")
  = Ok (Some (strip (py " Theft is punishable. "),
              strip (py " Chapter 20, Section 241 "))).
Proof.
  exact (proj1 (proj2 (parse_answer_pieces [] (py "Sure. ")
                         (py " Theft is punishable. ")
                         (py " Chapter 20, Section 241 "))
                  eq_refl eq_refl eq_refl eq_refl eq_refl)).
Defined.

(** C2 as stated fails on repeated markers: with a second [Source:] the
    code's source text stops there, and with a second [Answer:] the code's
    answer text stops there. *)
Lemma parse_answer_repeated_marker :
  (let raw := py "Answer: a Source: b Source: c" in
   parse_answer raw = Ok (Some (py "a", py "b"))
   ∧ parse_spec raw = Some (py "a", py "b Source: c")
   ∧ parse_answer raw ≠ Ok (parse_spec raw))
  ∧ (let raw := py "Answer: a Answer: b Source: c" in
     parse_answer raw = Ok (Some (py "a", py "c"))
     ∧ parse_spec raw = Some (py "a Answer: b", py "c")
     ∧ parse_answer raw ≠ Ok (parse_spec raw)).
Proof. split_and!; by vm_compute. Qed.

(** The refusal sentence, when the model answers with it, reaches the page
    as the answer text, like any other answer. *)
Lemma refusal_is_shown_as_the_answer :
  let raw := ANSWER ++ [10%N] ++ REFUSAL ++ [10%N; 10%N] ++ SOURCE ++ [10%N]
             ++ py "Not specified in provided text" in
  parse_answer raw = Ok (Some (REFUSAL, py "Not specified in provided text"))
  ∧ render_answer raw = Ok [REFUSAL].
Proof. split; by vm_compute. Qed.

(** ** The retrieval loop *)

Lemma dedup_loop_resolve metadata indices seen acc :
  dedup_loop metadata indices seen acc
  = hits ← resolve metadata indices; Ok (keep_first hits seen acc).
Proof.
  revert seen acc. induction indices as [|idx rest IH]; intros seen acc.
  - done.
  - cbn [dedup_loop resolve].
    destruct (idx <? Z.of_nat (length metadata)); [|apply IH].
    destruct (py_getitem metadata idx) as [it|e]; [|done].
    cbn [mbind outcome_bind]. case_decide as Hkey; rewrite IH;
      destruct (resolve metadata rest) as [hits|e]; try done;
      cbn [mbind outcome_bind keep_first].
    + by case_decide.
    + by case_decide.
Qed.

Lemma keep_first_acc hits seen acc :
  keep_first hits seen acc = acc ++ keep_first hits seen [].
Proof.
  revert seen acc. induction hits as [|it rest IH]; intros seen acc; simpl.
  - by rewrite app_nil_r.
  - case_decide; [|apply IH].
    rewrite IH, (IH _ [it]). by rewrite <- app_assoc.
Qed.

Lemma keep_first_cons it rest seen :
  keep_first (it :: rest) seen []
  = if decide (section_key it ∉ seen)
    then it :: keep_first rest ({[section_key it]} ∪ seen) []
    else keep_first rest seen [].
Proof. simpl. case_decide; [|done]. by rewrite keep_first_acc. Qed.

Lemma keep_first_sublist hits seen : keep_first hits seen [] `sublist_of` hits.
Proof.
  revert seen. induction hits as [|it rest IH]; intros seen.
  - done.
  - rewrite keep_first_cons. case_decide.
    + by apply sublist_skip.
    + by apply sublist_cons.
Qed.

Lemma keep_first_fresh hits seen r :
  r ∈ keep_first hits seen [] → section_key r ∉ seen.
Proof.
  revert seen. induction hits as [|it rest IH]; intros seen.
  - by intros ?%elem_of_nil.
  - rewrite keep_first_cons. case_decide.
    + intros [->|Hr]%elem_of_cons; [done|]. apply IH in Hr. set_solver.
    + apply IH.
Qed.

Lemma keep_first_NoDup hits seen :
  NoDup (section_key <$> keep_first hits seen []).
Proof.
  revert seen. induction hits as [|it rest IH]; intros seen.
  - constructor.
  - rewrite keep_first_cons. case_decide; [|apply IH].
    rewrite fmap_cons. constructor; [|apply IH].
    intros (r & Hk & Hr)%list_elem_of_fmap.
    apply keep_first_fresh in Hr. set_solver.
Qed.

(** A retained hit is the first hit with its key. *)
Lemma keep_first_first hits seen r :
  r ∈ keep_first hits seen [] →
  ∃ before after, hits = before ++ r :: after
    ∧ ∀ h, h ∈ before → section_key h ≠ section_key r.
Proof.
  revert seen. induction hits as [|it rest IH]; intros seen.
  - by intros ?%elem_of_nil.
  - rewrite keep_first_cons. case_decide as Hit.
    + intros [->|Hr]%elem_of_cons.
      * exists [], rest. split; [done|]. by intros h ?%elem_of_nil.
      * pose proof (keep_first_fresh _ _ _ Hr) as Hfresh.
        destruct (IH _ Hr) as (before & after & -> & Hb).
        exists (it :: before), after. split; [done|].
        intros h [->|Hh]%elem_of_cons; [set_solver|by apply Hb].
    + intros Hr. pose proof (keep_first_fresh _ _ _ Hr) as Hfresh.
      destruct (IH _ Hr) as (before & after & -> & Hb).
      exists (it :: before), after. split; [done|].
      intros h [->|Hh]%elem_of_cons; [|by apply Hb].
      intros Heq. apply Hfresh. by rewrite <- Heq.
Qed.

(** Every key met by the loop is kept once or was seen before. *)
Lemma keep_first_covers hits seen h :
  h ∈ hits →
  section_key h ∈ seen
  ∨ ∃ r, r ∈ keep_first hits seen [] ∧ section_key r = section_key h.
Proof.
  revert seen. induction hits as [|it rest IH]; intros seen.
  - by intros ?%elem_of_nil.
  - rewrite keep_first_cons. intros [->|Hh]%elem_of_cons.
    + case_decide as Hit.
      * right. exists it. split; [left|done].
      * by left.
    + case_decide as Hit.
      * destruct (IH ({[section_key it]} ∪ seen) Hh) as [Hs|(r & Hr & Hk)].
        -- apply elem_of_union in Hs as [Hs%elem_of_singleton|Hs]; [|by left].
           right. exists it. split; [left|done].
        -- right. exists r. split; [by right|done].
      * apply IH, Hh.
Qed.

(** ** Citations and context *)

Lemma getitem_get it k :
  truthy (get it k) = true → getitem it k = Ok (get it k).
Proof. unfold get, getitem. by destruct (it !! py k). Qed.

Lemma subsection_guard_shown it :
  subsection_guard it = Ok (subsection_shown it).
Proof.
  unfold subsection_guard, subsection_shown.
  destruct (truthy (get it "subsection")) eqn:Ht; [|done].
  by rewrite getitem_get.
Qed.

Lemma citation_parts_labels it : citation_parts it = Ok (citation_labels it).
Proof.
  unfold citation_parts, citation_labels, label.
  rewrite subsection_guard_shown.
  assert (subsection_shown it = true →
          getitem it "subsection" = Ok (get it "subsection")) as Hsub.
  { intros [H _]%andb_prop. by apply getitem_get. }
  destruct (truthy (get it "chapter")) eqn:Hc;
    destruct (truthy (get it "section")) eqn:Hs;
    (destruct (subsection_shown it); [rewrite Hsub by done|]);
    rewrite ?(getitem_get it "chapter"), ?(getitem_get it "section") by done;
    done.
Qed.

Lemma absent_not_truthy it k : absent it k → truthy (get it k) = false.
Proof. unfold absent, get. by intros [->|[->| ->]]. Qed.

Lemma chunk_of_block it : chunk_of it = Ok (block it).
Proof. unfold chunk_of. by rewrite citation_parts_labels. Qed.

Lemma chunk_loop_blocks items chunks :
  chunk_loop items chunks = Ok (chunks ++ (block <$> items)).
Proof.
  revert chunks. induction items as [|it rest IH]; intros chunks; simpl.
  - by rewrite app_nil_r.
  - rewrite chunk_of_block. cbn [mbind outcome_bind].
    rewrite IH. by rewrite <- app_assoc.
Qed.

(** ** [search_law] as a whole *)

Section RetrievalFacts.
Context {vec D : Type}.
Implicit Types (st : session_state) (sbert : @encoder vec)
  (index : @vindex vec D).

Lemma search_law_unfold st query sbert index metadata k :
  search_law st query sbert index metadata k
  = match dedup_loop metadata (index (sbert query) k).2 ∅ [] with
    | Ok retained =>
        let context := join BLANK_LINE (block <$> retained) in
        (stored st retained context, Ok context)
    | Raise e => (st, Raise e)
    end.
Proof.
  unfold search_law. destruct (index (sbert query) k) as [ds indices].
  cbn [snd]. destruct (dedup_loop metadata indices ∅ []) as [retained|e];
    cbn [mbind outcome_bind]; [|done].
  by rewrite chunk_loop_blocks.
Qed.

Lemma search_law_Ok st query sbert index metadata k st' context :
  search_law st query sbert index metadata k = (st', Ok context) →
  ∃ hits,
    resolve metadata (index (sbert query) k).2 = Ok hits
    ∧ context = join BLANK_LINE (block <$> keep_first hits ∅ [])
    ∧ st' = stored st (keep_first hits ∅ []) context.
Proof.
  rewrite search_law_unfold, dedup_loop_resolve.
  destruct (resolve metadata _) as [hits|e]; cbn [mbind outcome_bind];
    [|done].
  intros [= <- <-]. by exists hits.
Qed.

Lemma stored_retrieved_items st retained context :
  stored st retained context !! "retrieved_items" = Some (SItems retained).
Proof. unfold stored. by rewrite lookup_insert_ne, lookup_insert_eq. Qed.

Lemma stored_llm_context st retained context :
  stored st retained context !! "llm_context" = Some (SStr context).
Proof. unfold stored. by rewrite lookup_insert_eq. Qed.
End RetrievalFacts.

(** The walk returns when no neighbor index is below [-len(metadata)]. *)
Lemma resolve_returns metadata indices :
  Forall (λ idx, - Z.of_nat (length metadata) ≤ idx) indices →
  is_ok (resolve metadata indices).
Proof.
  induction 1 as [|idx rest Hidx _ [hits IH]]; [by exists []|].
  cbn [resolve]. destruct (idx <? Z.of_nat (length metadata)) eqn:Hlt;
    [|by exists hits].
  apply Z.ltb_lt in Hlt.
  assert (∃ it, py_getitem metadata idx = Ok it) as [it ->].
  { unfold py_getitem. destruct (idx <? 0) eqn:Hneg.
    - apply Z.ltb_lt in Hneg.
      replace (0 <=? _) with true by (symmetry; apply Z.leb_le; lia).
      replace (_ <? Z.of_nat _) with true by (symmetry; apply Z.ltb_lt; lia).
      cbn [andb].
      destruct (lookup_lt_is_Some_2 metadata
                  (Z.to_nat (idx + Z.of_nat (length metadata)))) as [it ->];
        [lia|by exists it].
    - apply Z.ltb_ge in Hneg.
      replace (0 <=? _) with true by (symmetry; apply Z.leb_le; lia).
      replace (_ <? Z.of_nat _) with true by (symmetry; apply Z.ltb_lt; lia).
      cbn [andb].
      destruct (lookup_lt_is_Some_2 metadata (Z.to_nat idx)) as [it ->];
        [lia|by exists it]. }
  rewrite IH. by exists (it :: hits).
Qed.

Section RetrievalReturns.
Context {vec D : Type}.
Implicit Types (st : session_state) (sbert : @encoder vec)
  (index : @vindex vec D).

(** The retrieval returns when no neighbor index is below
    [-len(metadata)]. *)
Lemma search_law_returns st query sbert index metadata k :
  Forall (λ idx, - Z.of_nat (length metadata) ≤ idx)
    (index (sbert query) k).2 →
  ∃ st' context,
    search_law st query sbert index metadata k = (st', Ok context).
Proof.
  intros [hits Hres]%resolve_returns.
  rewrite search_law_unfold, dedup_loop_resolve, Hres.
  cbn [mbind outcome_bind]. by eexists _, _.
Qed.

End RetrievalReturns.

Lemma Forall2_sublist {A B} (P : A → B → Prop) l k l' :
  Forall2 P l k → l' `sublist_of` l →
  ∃ k', k' `sublist_of` k ∧ Forall2 P l' k'.
Proof.
  intros HF Hsub. revert k HF.
  induction Hsub as [|x l1 l2 _ IH|x l1 l2 _ IH]; intros k HF.
  - apply Forall2_nil_inv_l in HF as ->. by exists [].
  - apply Forall2_cons_inv_l in HF as (y & k2 & Hxy & HF & ->).
    destruct (IH _ HF) as (k' & Hk' & HF').
    exists (y :: k'). split; [by apply sublist_skip|by constructor].
  - apply Forall2_cons_inv_l in HF as (y & k2 & Hxy & HF & ->).
    destruct (IH _ HF) as (k' & Hk' & HF').
    exists k'. split; [by apply sublist_cons|done].
Qed.

Lemma StronglySorted_sublist {A} (R : relation A) l1 l2 :
  l1 `sublist_of` l2 → StronglySorted R l2 → StronglySorted R l1.
Proof.
  induction 1 as [|x l1 l2 Hsub IH|x l1 l2 Hsub IH]; intros HS.
  - constructor.
  - apply StronglySorted_inv in HS as [HS HF]. constructor; [by apply IH|].
    apply Forall_forall. intros y Hy.
    eapply Forall_forall in HF; [done|]. by eapply elem_of_sublist.
  - apply StronglySorted_inv in HS as [HS _]. by apply IH.
Qed.

(** Each hit comes from one neighbor, in the order of the search. *)
Lemma resolve_ranked {D} metadata indices (ds : list D) hits :
  resolve metadata indices = Ok hits → length ds = length indices →
  ∃ pos, pos `sublist_of` zip ds indices
    ∧ Forall2 (λ h (p : D * Z), py_getitem metadata p.2 = Ok h) hits pos.
Proof.
  revert ds hits. induction indices as [|idx rest IH]; intros ds hits.
  - intros [= <-] _. exists []. split; [apply sublist_nil_l|constructor].
  - destruct ds as [|d ds]; [done|]. cbn [resolve zip zip_with length].
    intros Hres [= Hlen].
    destruct (idx <? Z.of_nat (length metadata)).
    + destruct (py_getitem metadata idx) as [it|e] eqn:Hit; [|done].
      cbn [mbind outcome_bind] in Hres.
      destruct (resolve metadata rest) as [hits'|e]; [|done].
      injection Hres as <-.
      destruct (IH ds hits' eq_refl Hlen) as (pos & Hpos & HF).
      exists ((d, idx) :: pos). split; [by apply sublist_skip|].
      by constructor.
    + destruct (IH ds hits Hres Hlen) as (pos & Hpos & HF).
      exists pos. split; [by apply sublist_cons|done].
Qed.

Section RetrievalClaims.
Context {vec D : Type}.
Implicit Types (st : session_state) (sbert : @encoder vec)
  (index : @vindex vec D).

(** C1, as the code has it: the retained hits have pairwise different
    key strings [f"{section}-{subsection}"]; each retained hit is the first
    hit of the walk with its key string; every hit's key string is
    retained once. *)
Theorem dedup_first_per_key st query sbert index metadata k st' context :
  search_law st query sbert index metadata k = (st', Ok context) →
  ∃ hits retained,
    resolve metadata (index (sbert query) k).2 = Ok hits
    ∧ st' !! "retrieved_items" = Some (SItems retained)
    ∧ NoDup (section_key <$> retained)
    ∧ (∀ r, r ∈ retained →
         ∃ before after, hits = before ++ r :: after
           ∧ ∀ h, h ∈ before → section_key h ≠ section_key r)
    ∧ (∀ h, h ∈ hits →
         ∃ r, r ∈ retained ∧ section_key r = section_key h).
Proof.
  intros (hits & Hres & -> & ->)%search_law_Ok.
  exists hits, (keep_first hits ∅ []). split_and!.
  - done.
  - apply stored_retrieved_items.
  - apply keep_first_NoDup.
  - intros r. apply keep_first_first.
  - intros h Hh. destruct (keep_first_covers hits ∅ h Hh) as [?|?];
      [set_solver|done].
Qed.

(** C5: the context is the blocks [[citation] text] of the retained hits,
    in their order, joined by a blank line, a block being the chunk the
    second loop builds; with two retained hits it is the first block, two
    newlines, the second block. *)
Theorem context_blocks st query sbert index metadata k st' context :
  search_law st query sbert index metadata k = (st', Ok context) →
  ∃ retained,
    st' !! "retrieved_items" = Some (SItems retained)
    ∧ context = join [10%N; 10%N] (block <$> retained)
    ∧ (∀ it, chunk_of it = Ok (block it)
         ∧ block it
           = py "[" ++ join (py ", ") (citation_labels it) ++ py "] "
             ++ str_of (get_or it "text" (VStr [])))
    ∧ (∀ h1 h2, retained = [h1; h2] →
         context = block h1 ++ [10%N; 10%N] ++ block h2).
Proof.
  intros (hits & Hres & -> & ->)%search_law_Ok.
  exists (keep_first hits ∅ []). split_and!.
  - apply stored_retrieved_items.
  - done.
  - intros it. split; [apply chunk_of_block|done].
  - by intros h1 h2 ->.
Qed.

(** C6: every retained hit is the record of one neighbor, the neighbors of
    the retained hits follow one another as in the search result, so their
    distances ascend when the search result's do, and there are at most
    [k] of them when the search returns at most [k] neighbors. *)
Theorem retained_in_search_order st query sbert index metadata k st' context
    (R : relation D) :
  search_law st query sbert index metadata k = (st', Ok context) →
  length (index (sbert query) k).1 = length (index (sbert query) k).2 →
  Z.of_nat (length (index (sbert query) k).2) ≤ k →
  ∃ retained kept,
    st' !! "retrieved_items" = Some (SItems retained)
    ∧ kept `sublist_of`
        zip (index (sbert query) k).1 (index (sbert query) k).2
    ∧ Forall2 (λ r (p : D * Z), py_getitem metadata p.2 = Ok r)
        retained kept
    ∧ (StronglySorted R (index (sbert query) k).1 →
       StronglySorted R kept.*1)
    ∧ Z.of_nat (length retained) ≤ k.
Proof.
  intros (hits & Hres & -> & ->)%search_law_Ok Hlen Hk.
  destruct (resolve_ranked _ _ _ _ Hres Hlen) as (pos & Hpos & HF).
  destruct (Forall2_sublist _ _ _ _ HF (keep_first_sublist hits ∅))
    as (kept & Hkept & HF').
  assert (kept `sublist_of`
            zip (index (sbert query) k).1 (index (sbert query) k).2)
    as Hsub by (by etrans).
  exists (keep_first hits ∅ []), kept. split_and!.
  - apply stored_retrieved_items.
  - done.
  - done.
  - intros HS. eapply StronglySorted_sublist; [|exact HS].
    pose proof (fmap_sublist fst _ _ Hsub) as Hfst.
    by rewrite fst_zip in Hfst by lia.
  - apply Forall2_length in HF'. apply sublist_length in Hsub.
    rewrite length_zip_with in Hsub. lia.
Qed.
End RetrievalClaims.

Section StateClaims.
Context {vec D : Type}.
Implicit Types (st : session_state) (sbert : @encoder vec)
  (index : @vindex vec D).

Lemma stored_other st retained context (name : string) :
  name ≠ "retrieved_items" → name ≠ "llm_context" →
  stored st retained context !! name = st !! name.
Proof. intros H1 H2. unfold stored. by rewrite !lookup_insert_ne. Qed.

Lemma stored_twice st retained context :
  stored (stored st retained context) retained context
  = stored st retained context.
Proof.
  unfold stored. apply map_eq. intros name.
  rewrite !lookup_insert. by repeat case_decide.
Qed.

(** C8, as the code has it: a retrieval that returns overwrites the two
    session entries [retrieved_items] and [llm_context] with the retained
    hits and the context, and leaves every other entry as it was; one that
    raises leaves the session state untouched. *)
Theorem search_law_writes st query sbert index metadata k :
  (∀ name : string, name ≠ "retrieved_items" → name ≠ "llm_context" →
     (search_law st query sbert index metadata k).1 !! name = st !! name)
  ∧ (∀ context,
       (search_law st query sbert index metadata k).2 = Ok context →
       (search_law st query sbert index metadata k).1 !! "llm_context"
       = Some (SStr context)
       ∧ ∃ retained,
           dedup_loop metadata (index (sbert query) k).2 ∅ [] = Ok retained
           ∧ (search_law st query sbert index metadata k).1
               !! "retrieved_items" = Some (SItems retained))
  ∧ (∀ e, (search_law st query sbert index metadata k).2 = Raise e →
       (search_law st query sbert index metadata k).1 = st).
Proof.
  rewrite search_law_unfold.
  destruct (dedup_loop metadata _ ∅ []) as [retained|e]; cbn [fst snd].
  - split_and!.
    + intros name ??. by apply stored_other.
    + intros context [= <-]. split; [apply stored_llm_context|].
      exists retained. split; [done|apply stored_retrieved_items].
    + done.
  - split_and!; done.
Qed.

(** C9: the outcome of a retrieval does not depend on the session state it
    starts from, the two entries it writes do not either, and a second
    retrieval of the same question returns the same context and leaves the
    state of the first. *)
Theorem search_law_repeatable st1 st2 query sbert index metadata k :
  (search_law st1 query sbert index metadata k).2
  = (search_law st2 query sbert index metadata k).2
  ∧ (is_ok (search_law st1 query sbert index metadata k).2 →
     (search_law st1 query sbert index metadata k).1 !! "retrieved_items"
     = (search_law st2 query sbert index metadata k).1 !! "retrieved_items"
     ∧ (search_law st1 query sbert index metadata k).1 !! "llm_context"
       = (search_law st2 query sbert index metadata k).1 !! "llm_context")
  ∧ search_law (search_law st1 query sbert index metadata k).1
      query sbert index metadata k
    = search_law st1 query sbert index metadata k.
Proof.
  rewrite !search_law_unfold.
  destruct (dedup_loop metadata _ ∅ []) as [retained|e]; cbn [fst snd].
  - split_and!.
    + done.
    + intros _. by rewrite !stored_retrieved_items, !stored_llm_context.
    + by rewrite stored_twice.
  - split_and!; [done|by intros [? [=]]|done].
Qed.
End StateClaims.

(** C10, as the code has it: the guard skips an index exactly when it is at
    least [len(metadata)]; a lower index is looked up; a negative one from
    [-len(metadata)] on yields the record that far from the end, so [-1]
    yields the last record, which is then retained although no neighbor
    matched it; one below [-len(metadata)] raises [IndexError]. *)
Theorem negative_index_lookup (metadata : list item) (idx : Z)
    (rest : list Z) (seen : gset pystr) (acc : list item) :
  (Z.of_nat (length metadata) ≤ idx →
     dedup_loop metadata (idx :: rest) seen acc
     = dedup_loop metadata rest seen acc)
  ∧ (idx < Z.of_nat (length metadata) →
     dedup_loop metadata (idx :: rest) seen acc
     = it ← py_getitem metadata idx;
       if decide (section_key it ∉ seen)
       then dedup_loop metadata rest ({[section_key it]} ∪ seen) (acc ++ [it])
       else dedup_loop metadata rest seen acc)
  ∧ (idx < 0 → - Z.of_nat (length metadata) ≤ idx →
     ∃ it, metadata !! Z.to_nat (Z.of_nat (length metadata) + idx) = Some it
       ∧ py_getitem metadata idx = Ok it)
  ∧ (idx < - Z.of_nat (length metadata) →
     dedup_loop metadata (idx :: rest) seen acc = Raise IndexError)
  ∧ (∀ it, last metadata = Some it →
     py_getitem metadata (-1) = Ok it
     ∧ dedup_loop metadata [-1] ∅ [] = Ok [it]).
Proof.
  split_and!.
  - intros H. cbn [dedup_loop].
    by replace (idx <? _) with false by (symmetry; apply Z.ltb_ge; lia).
  - intros H. cbn [dedup_loop].
    by replace (idx <? _) with true by (symmetry; apply Z.ltb_lt; lia).
  - intros Hneg Hlow. unfold py_getitem.
    replace (idx <? 0) with true by (symmetry; apply Z.ltb_lt; lia).
    replace (0 <=? _) with true by (symmetry; apply Z.leb_le; lia).
    replace (_ <? Z.of_nat _) with true by (symmetry; apply Z.ltb_lt; lia).
    cbn [andb]. rewrite (Z.add_comm idx).
    destruct (lookup_lt_is_Some_2 metadata
                (Z.to_nat (Z.of_nat (length metadata) + idx))) as [it Hit];
      [lia|]. exists it. by rewrite Hit.
  - intros Hlow. cbn [dedup_loop].
    replace (idx <? Z.of_nat _) with true by (symmetry; apply Z.ltb_lt; lia).
    unfold py_getitem.
    replace (idx <? 0) with true by (symmetry; apply Z.ltb_lt; lia).
    by replace (0 <=? _) with false by (symmetry; apply Z.leb_gt; lia).
  - intros it Hlast.
    assert (py_getitem metadata (-1) = Ok it) as Hget.
    { rewrite last_lookup in Hlast.
      pose proof (lookup_lt_Some _ _ _ Hlast) as Hlt.
      unfold py_getitem. cbn [Z.ltb Z.compare].
      replace (0 <=? _) with true by (symmetry; apply Z.leb_le; lia).
      replace (_ <? Z.of_nat _) with true by (symmetry; apply Z.ltb_lt; lia).
      cbn [andb].
      replace (Z.to_nat (-1 + Z.of_nat (length metadata)))
        with (pred (length metadata)) by lia.
      by rewrite Hlast. }
    split; [done|]. cbn [dedup_loop].
    replace (-1 <? Z.of_nat _) with true by (symmetry; apply Z.ltb_lt; lia).
    rewrite Hget. cbn [mbind outcome_bind].
    case_decide as Hk; [done|]. set_solver.
Qed.

(** ** [format_citation] *)

Lemma join_cons_nonempty sep (p : pystr) ps :
  p ≠ [] → join sep (p :: ps) ≠ [].
Proof. destruct p; [done|]. by destruct ps. Qed.

Lemma label_nonempty prefix v shown p :
  prefix ≠ EmptyString → p ∈ label prefix v shown → p ≠ [].
Proof.
  intros Hp. unfold label. destruct shown; [|by intros ?%elem_of_nil].
  intros ->%list_elem_of_singleton. by destruct prefix.
Qed.

Lemma citation_labels_nonempty it p : p ∈ citation_labels it → p ≠ [].
Proof.
  unfold citation_labels. rewrite !elem_of_app.
  intros [H|[H|H]]; (eapply label_nonempty; [|exact H]; done).
Qed.

Lemma truthy_there (it : item) (k : string) :
  text_or_null it k → truthy (get it k) = there it k.
Proof.
  unfold get, there. intros [->|[->|[s ->]]]; [done|done|by destruct s].
Qed.

Lemma subsection_shown_there (it : item) :
  text_or_null it "subsection" →
  subsection_shown it
  = there it "subsection" && negb (null_word it "subsection").
Proof.
  intros H. unfold subsection_shown. rewrite (truthy_there _ _ H).
  unfold get, there, null_word. destruct H as [->|[->|[s ->]]]; [done|done|].
  destruct s as [|c s]; [done|]. cbn [default from_option id py_in existsb py_eq].
  cbn [andb orb]. rewrite (bool_decide_eq_false_2 (c :: s = [])) by done.
  cbn [orb]. by rewrite orb_false_r.
Qed.

Lemma citation_labels_as_specified (it : item) :
  text_or_null it "chapter" → text_or_null it "section" →
  text_or_null it "subsection" →
  citation_labels it = citation_spec_labels it.
Proof.
  intros Hc Hs Hu. unfold citation_labels, citation_spec_labels.
  by rewrite (truthy_there _ _ Hc), (truthy_there _ _ Hs),
    (subsection_shown_there _ Hu).
Qed.

(** C4, as the code has it: the citation is the parts [Chapter c],
    [Section s], [Sub-section u] of the fields whose value is truthy (a
    missing field, [null], the empty string, the number 0 and [false] are
    left out), the sub-section also not being the string [null], joined by a
    comma and a space; for a record whose fields are strings, [null] or
    missing this is the join over the fields that are there; chapter 5,
    section 41 and a null sub-section give [Chapter 5, Section 41]; with no
    field there the citation is [Citation not available]; it is never the
    empty string. *)
Theorem format_citation_joined (it : item) (c s u : pystr) :
  format_citation it
  = Ok (match citation_labels it with
        | [] => py "Citation not available"
        | _ :: _ => join (py ", ") (citation_labels it)
        end)
  ∧ format_citation rec_5_41 = Ok (py "Chapter 5, Section 41")
  ∧ (absent it "chapter" → absent it "section" →
     absent it "subsection" ∨ it !! py "subsection" = Some (VStr (py "null")) →
     format_citation it = Ok (py "Citation not available"))
  ∧ (it !! py "chapter" = Some (VStr c) → c ≠ [] →
     it !! py "section" = Some (VStr s) → s ≠ [] →
     it !! py "subsection" = Some (VStr u) → u ≠ [] → u ≠ py "null" →
     format_citation it
     = Ok (py "Chapter " ++ c ++ py ", Section " ++ s
           ++ py ", Sub-section " ++ u))
  ∧ format_citation it ≠ Ok []
  ∧ (text_or_null it "chapter" → text_or_null it "section" →
     text_or_null it "subsection" →
     format_citation it = Ok (citation_as_specified it))
  ∧ (∀ v, truthy v = false
          ↔ v = VNone ∨ v = VBool false ∨ v = VInt 0 ∨ v = VStr []).
Proof.
  assert (format_citation it
          = Ok (match citation_labels it with
                | [] => py "Citation not available"
                | _ :: _ => join (py ", ") (citation_labels it)
                end)) as Heq.
  { unfold format_citation. rewrite citation_parts_labels.
    cbn [mbind outcome_bind]. by destruct (citation_labels it). }
  split_and!.
  - done.
  - by vm_compute.
  - intros Hc Hs Hu. rewrite Heq. unfold citation_labels, subsection_shown.
    rewrite (absent_not_truthy _ _ Hc), (absent_not_truthy _ _ Hs).
    destruct Hu as [Hu|Hu].
    + by rewrite (absent_not_truthy _ _ Hu).
    + unfold get. rewrite Hu. done.
  - intros Hc Hc0 Hs Hs0 Hu Hu0 Hnull. rewrite Heq.
    unfold citation_labels, subsection_shown, get. rewrite Hc, Hs, Hu.
    destruct c as [|c0 c']; [done|]. destruct s as [|s0 s']; [done|].
    destruct u as [|u0 u']; [done|].
    cbn [default from_option id truthy py_in existsb py_eq andb orb negb].
    rewrite bool_decide_eq_false_2 by done.
    rewrite bool_decide_eq_false_2 by done.
    cbn [negb orb label join app str_of]. f_equal.
  - rewrite Heq. intros [= H]. destruct (citation_labels it) as [|p ps] eqn:E.
    + discriminate.
    + revert H. apply join_cons_nonempty, (citation_labels_nonempty it).
      rewrite E. left.
  - intros Hc Hs Hu. rewrite Heq. unfold citation_as_specified.
    by rewrite (citation_labels_as_specified it Hc Hs Hu).
  - intros v. split.
    + destruct v as [|[]|z|[|a l]]; cbn; try done; try (intros _; tauto).
      intros Hz%negb_false_iff%Z.eqb_eq. subst. tauto.
    + by intros [->|[->|[->| ->]]].
Qed.

Lemma format_citation_joined_witness :
  format_citation {[ py "subsection" := VStr (py "null") ]}
  = Ok (py "Citation not available")
  ∧ format_citation rec_20_241_2
    = Ok (py "Chapter " ++ py "20" ++ py ", Section " ++ py "241"
          ++ py ", Sub-section " ++ py "2")
  ∧ format_citation rec_41_null = Ok (citation_as_specified rec_41_null).
Proof.
  split_and!.
  - apply (proj1 (proj2 (proj2
             (format_citation_joined {[ py "subsection" := VStr (py "null") ]}
                [] [] [])))).
    + left. by vm_compute.
    + left. by vm_compute.
    + right. by vm_compute.
  - apply (proj1 (proj2 (proj2 (proj2
             (format_citation_joined rec_20_241_2 (py "20") (py "241")
                (py "2"))))));
      by vm_compute.
  - apply (proj1 (proj2 (proj2 (proj2 (proj2 (proj2
             (format_citation_joined rec_41_null [] [] []))))))).
    + left. by vm_compute.
    + right. right. eexists. by vm_compute.
    + right. right. eexists. by vm_compute.
Defined.

(** C4 as stated fails on a field that is there but not truthy: chapter 0
    is not missing, not [null] and not empty, yet the citation has no
    chapter part. *)
Lemma format_citation_drops_chapter_zero :
  format_citation rec_0_41 = Ok (py "Section 41")
  ∧ citation_as_specified rec_0_41 = py "Chapter 0, Section 41"
  ∧ ¬ absent rec_0_41 "chapter"
  ∧ format_citation rec_0_41 ≠ Ok (citation_as_specified rec_0_41).
Proof.
  split_and!; try by vm_compute.
  unfold absent. replace (rec_0_41 !! py "chapter") with (Some (VInt 0))
    by (by vm_compute).
  by intros [|[|]].
Qed.

(** ** Loading the corpus *)




(** ** Runs on the small corpus *)

Lemma dedup_first_per_key_witness :
  ∃ hits retained,
    resolve chunked (corpus_index (unit_sbert q_murder) 3).2 = Ok hits
    ∧ (search_law ∅ q_murder unit_sbert corpus_index chunked 3).1
        !! "retrieved_items" = Some (SItems retained)
    ∧ NoDup (section_key <$> retained)
    ∧ (∀ r, r ∈ retained →
         ∃ before after, hits = before ++ r :: after
           ∧ ∀ h, h ∈ before → section_key h ≠ section_key r)
    ∧ (∀ h, h ∈ hits → ∃ r, r ∈ retained ∧ section_key r = section_key h).
Proof.
  apply (dedup_first_per_key ∅ q_murder unit_sbert corpus_index chunked 3 _
           (join BLANK_LINE (block <$> [rec_41; rec_99]))).
  by vm_compute.
Defined.

(** C1 as stated fails: a [null] sub-section and the string [null] give the
    key strings [41-None] and [41-null], so both records are retained
    although their normalized keys are the same. *)
Lemma dedup_keeps_null_spellings :
  (search_law (vec:=unit) (D:=Z) ∅ q_murder unit_sbert
     (λ _ _, ([2; 5], [0; 1])) [rec_41; rec_41_null] 2).1
    !! "retrieved_items" = Some (SItems [rec_41; rec_41_null])
  ∧ section_key rec_41 = py "41-None"
  ∧ section_key rec_41_null = py "41-null"
  ∧ normalized_key rec_41 = normalized_key rec_41_null
  ∧ ¬ NoDup (normalized_key <$> [rec_41; rec_41_null]).
Proof.
  split_and!; try by vm_compute.
  intros [Hn _]%NoDup_cons. apply Hn. vm_compute. left.
Qed.

Lemma context_blocks_witness :
  ∃ retained,
    (search_law ∅ q_murder unit_sbert corpus_index [rec_5_41; rec_41_1] 2).1
      !! "retrieved_items" = Some (SItems retained)
    ∧ py "[Chapter 5, Section 41] " ++ [10; 10]%N
      ++ py "[Section 41, Sub-section 1] Exception..."
      = join [10%N; 10%N] (block <$> retained)
    ∧ (∀ it, chunk_of it = Ok (block it)
         ∧ block it
           = py "[" ++ join (py ", ") (citation_labels it) ++ py "] "
             ++ str_of (get_or it "text" (VStr [])))
    ∧ (∀ h1 h2, retained = [h1; h2] →
         py "[Chapter 5, Section 41] " ++ [10; 10]%N
         ++ py "[Section 41, Sub-section 1] Exception..."
         = block h1 ++ [10%N; 10%N] ++ block h2).
Proof.
  apply (context_blocks ∅ q_murder unit_sbert corpus_index
           [rec_5_41; rec_41_1] 2).
  by vm_compute.
Defined.

Lemma retained_in_search_order_witness :
  ∃ retained kept,
    (search_law ∅ q_murder unit_sbert corpus_index chunked 3).1
      !! "retrieved_items" = Some (SItems retained)
    ∧ kept `sublist_of` [(2, 0); (5, 1); (9, 2)]
    ∧ Forall2 (λ r (p : Z * Z), py_getitem chunked p.2 = Ok r) retained kept
    ∧ (StronglySorted Z.le [2; 5; 9] → StronglySorted Z.le kept.*1)
    ∧ Z.of_nat (length retained) ≤ 3.
Proof.
  apply (retained_in_search_order ∅ q_murder unit_sbert corpus_index chunked 3
           _ (join BLANK_LINE (block <$> [rec_41; rec_99])) Z.le).
  - by vm_compute.
  - reflexivity.
  - by vm_compute.
Defined.

Lemma search_law_writes_witness :
  (search_law ∅ q_murder unit_sbert corpus_index corpus 3).1 !! "llm_context"
  = Some (SStr (join BLANK_LINE (block <$> corpus)))
  ∧ ∃ retained,
      dedup_loop corpus (corpus_index (unit_sbert q_murder) 3).2 ∅ []
      = Ok retained
      ∧ (search_law ∅ q_murder unit_sbert corpus_index corpus 3).1
          !! "retrieved_items" = Some (SItems retained).
Proof.
  apply (proj1 (proj2 (search_law_writes ∅ q_murder unit_sbert corpus_index
                         corpus 3))).
  by vm_compute.
Defined.

(** C8 as stated fails: the retrieval writes the session state. *)
Lemma search_law_changes_session_state :
  let st : session_state := ∅ in
  let st' := (search_law st q_murder unit_sbert corpus_index corpus 3).1 in
  st !! "retrieved_items" = None
  ∧ st' !! "retrieved_items" = Some (SItems corpus)
  ∧ st' ≠ st.
Proof.
  split_and!; by vm_compute.
Qed.

Lemma search_law_repeatable_witness :
  (search_law ∅ q_murder unit_sbert corpus_index corpus 3).1
    !! "retrieved_items"
  = (search_law {[ "user_query" := SStr q_murder ]} q_murder unit_sbert
       corpus_index corpus 3).1 !! "retrieved_items"
  ∧ (search_law ∅ q_murder unit_sbert corpus_index corpus 3).1
      !! "llm_context"
    = (search_law {[ "user_query" := SStr q_murder ]} q_murder unit_sbert
         corpus_index corpus 3).1 !! "llm_context".
Proof.
  apply (proj1 (proj2 (search_law_repeatable ∅
                         {[ "user_query" := SStr q_murder ]} q_murder
                         unit_sbert corpus_index corpus 3))).
  eexists. by vm_compute.
Defined.

Lemma negative_index_lookup_witness :
  py_getitem corpus (-1) = Ok rec_99
  ∧ dedup_loop corpus [-1] ∅ [] = Ok [rec_99].
Proof.
  apply (proj2 (proj2 (proj2 (proj2
           (negative_index_lookup corpus (-1) [] ∅ []))))).
  reflexivity.
Defined.

(** C10 as stated fails below [-len(metadata)]: with no metadata record the
    padding index [-1] passes the guard and the lookup raises. *)
Lemma negative_index_raises_on_empty_metadata :
  (-1 <? Z.of_nat (length (@nil item))) = true
  ∧ py_getitem (@nil item) (-1) = Raise IndexError
  ∧ search_law (vec:=unit) (D:=Z) ∅ q_murder unit_sbert
      (λ _ _, ([340282346638528859811704183484516925440], [-1])) [] 1
    = (∅, Raise IndexError)
  ∧ py_getitem [rec_41] (-2) = Raise IndexError.
Proof. by vm_compute. Qed.


(** * Further properties of the retrieval *)

Lemma py_getitem_raises_IndexError {A} (l : list A) (i : Z) e :
  py_getitem l i = Raise e → e = IndexError.
Proof.
  unfold py_getitem. destruct (_ && _); [|by intros [= <-]].
  destruct (l !! _); [done|by intros [= <-]].
Qed.

Lemma py_getitem_below {A} (l : list A) (i : Z) :
  i < - Z.of_nat (length l) → py_getitem l i = Raise IndexError.
Proof.
  intros Hlow. unfold py_getitem.
  replace (i <? 0) with true by (symmetry; apply Z.ltb_lt; lia).
  by replace (0 <=? _) with false by (symmetry; apply Z.leb_gt; lia).
Qed.

Lemma resolve_raises_IndexError metadata indices e :
  resolve metadata indices = Raise e → e = IndexError.
Proof.
  induction indices as [|idx rest IH]; [done|]. cbn [resolve].
  destruct (idx <? _); [|done].
  destruct (py_getitem metadata idx) as [it|e'] eqn:Hit.
  - cbn [mbind outcome_bind].
    destruct (resolve metadata rest) as [hits|e']; [done|].
    intros [= <-]. by apply IH.
  - intros [= <-]. by eapply py_getitem_raises_IndexError.
Qed.

Lemma resolve_raises metadata indices :
  Exists (λ idx, idx < - Z.of_nat (length metadata)) indices →
  resolve metadata indices = Raise IndexError.
Proof.
  induction 1 as [idx rest Hlow|idx rest _ IH]; cbn [resolve].
  - replace (idx <? _) with true by (symmetry; apply Z.ltb_lt; lia).
    by rewrite py_getitem_below.
  - destruct (idx <? _); [|done].
    destruct (py_getitem metadata idx) as [it|e] eqn:Hit.
    + by rewrite IH.
    + by rewrite (py_getitem_raises_IndexError _ _ _ Hit).
Qed.

Lemma dedup_loop_in_range metadata indices seen acc :
  dedup_loop metadata indices seen acc
  = dedup_loop metadata
      (filter (λ idx, idx < Z.of_nat (length metadata)) indices) seen acc.
Proof.
  revert seen acc. induction indices as [|idx rest IH]; intros seen acc.
  - done.
  - rewrite filter_cons. cbn [dedup_loop]. case_decide as Hlt.
    + cbn [dedup_loop].
      replace (idx <? _) with true by (symmetry; apply Z.ltb_lt; lia).
      destruct (py_getitem metadata idx) as [it|e]; [|done].
      cbn [mbind outcome_bind]. by case_decide; rewrite IH.
    + replace (idx <? _) with false by (symmetry; apply Z.ltb_ge; lia).
      apply IH.
Qed.

Lemma size_add_fresh (x : pystr) (X : gset pystr) :
  x ∉ X → size ({[x]} ∪ X) = S (size X).
Proof.
  intros Hx. assert ({[x]} ## X) as Hd by set_solver.
  pose proof (size_union ({[x]} : gset pystr) X Hd) as Hs.
  pose proof (size_singleton (C:=gset pystr) x) as H1.
  rewrite Hs, H1. done.
Qed.

Lemma keep_first_size (hits : list item) (seen : gset pystr) :
  length (keep_first hits seen [])
  = size (list_to_set (section_key <$> hits) ∖ seen : gset pystr).
Proof.
  revert seen. induction hits as [|it rest IH]; intros seen.
  - cbn. rewrite difference_disjoint_L by set_solver.
    symmetry. apply size_empty.
  - rewrite keep_first_cons, fmap_cons, list_to_set_cons.
    case_decide as Hk.
    + cbn [length]. rewrite IH.
      replace (({[section_key it]} ∪ list_to_set (section_key <$> rest)) ∖ seen)
        with ({[section_key it]}
              ∪ list_to_set (section_key <$> rest)
                ∖ ({[section_key it]} ∪ seen) : gset pystr).
      * symmetry. apply size_add_fresh.
        rewrite elem_of_difference, elem_of_union, elem_of_singleton. tauto.
      * apply set_eq. intros x. rewrite !elem_of_union, !elem_of_difference,
          !elem_of_union, !elem_of_singleton.
        destruct (decide (x = section_key it)) as [->|]; tauto.
    + rewrite IH. f_equal. apply set_eq. intros x.
      rewrite !elem_of_difference, elem_of_union, elem_of_singleton.
      split; [tauto|]. intros [[->|?] ?]; tauto.
Qed.

Lemma keep_first_all (hits : list item) (seen : gset pystr) :
  NoDup (section_key <$> hits) →
  (∀ h, h ∈ hits → section_key h ∉ seen) →
  keep_first hits seen [] = hits.
Proof.
  revert seen. induction hits as [|it rest IH]; intros seen Hnd Hseen.
  - done.
  - rewrite keep_first_cons. rewrite fmap_cons in Hnd.
    apply NoDup_cons in Hnd as [Hit Hnd].
    rewrite decide_True by (apply Hseen; left).
    f_equal. apply IH; [done|]. intros h Hh.
    apply not_elem_of_union. split.
    + intros Heq%elem_of_singleton. apply Hit.
      apply list_elem_of_fmap. by exists h.
    + apply Hseen. by right.
Qed.

Lemma indices_in_range_or_below (n : Z) (indices : list Z) :
  Forall (λ idx, - n ≤ idx) indices ∨ Exists (λ idx, idx < - n) indices.
Proof.
  induction indices as [|idx rest [IH|IH]].
  - left. constructor.
  - destruct (Z_lt_le_dec idx (- n)).
    + right. by left.
    + left. by constructor.
  - right. by right.
Qed.

Lemma filter_past_metadata (n : Z) (indices : list Z) :
  Forall (λ idx, n ≤ idx) indices → filter (λ idx, idx < n) indices = [].
Proof.
  induction 1 as [|idx rest Hidx _ IH]; [done|].
  rewrite filter_cons, decide_False by lia. done.
Qed.

Section RetrievalEdges.
Context {vec D : Type}.
Implicit Types (st : session_state) (sbert : @encoder vec)
  (index : @vindex vec D).

(** The retrieval returns exactly when no neighbor index is below
    [-len(metadata)]; with one below, it raises [IndexError] and the session
    state is as before. *)
Theorem search_law_raises_iff_below_range st query sbert index metadata k :
  (Forall (λ idx, - Z.of_nat (length metadata) ≤ idx)
     (index (sbert query) k).2
   ↔ ∃ st' context,
       search_law st query sbert index metadata k = (st', Ok context))
  ∧ (Exists (λ idx, idx < - Z.of_nat (length metadata))
       (index (sbert query) k).2
     ↔ search_law st query sbert index metadata k = (st, Raise IndexError)).
Proof.
  assert (Exists (λ idx, idx < - Z.of_nat (length metadata))
            (index (sbert query) k).2 →
          search_law st query sbert index metadata k = (st, Raise IndexError))
    as Hraise.
  { intros Hbad%resolve_raises.
    by rewrite search_law_unfold, dedup_loop_resolve, Hbad. }
  split; split.
  - apply search_law_returns.
  - intros (st' & context & Hok).
    destruct (indices_in_range_or_below (Z.of_nat (length metadata))
                (index (sbert query) k).2) as [?|Hbad]; [done|].
    rewrite (Hraise Hbad) in Hok. discriminate.
  - done.
  - intros Hr.
    destruct (indices_in_range_or_below (Z.of_nat (length metadata))
                (index (sbert query) k).2) as [Hgood|?]; [|done].
    destruct (search_law_returns st query sbert index metadata k Hgood)
      as (st' & context & Hok).
    rewrite Hr in Hok. discriminate.
Qed.

(** Neighbor indices at or past [len(metadata)] leave no trace: two search
    results that agree on the indices below [len(metadata)] give the same
    retrieval. *)
Theorem search_law_ignores_indices_past_metadata st query sbert index1 index2
    metadata k :
  filter (λ idx, idx < Z.of_nat (length metadata)) (index1 (sbert query) k).2
  = filter (λ idx, idx < Z.of_nat (length metadata))
      (index2 (sbert query) k).2 →
  search_law st query sbert index1 metadata k
  = search_law st query sbert index2 metadata k.
Proof.
  intros Heq. rewrite !search_law_unfold.
  rewrite (dedup_loop_in_range metadata (index1 (sbert query) k).2).
  rewrite (dedup_loop_in_range metadata (index2 (sbert query) k).2).
  by rewrite Heq.
Qed.

(** When every neighbor index is at or past [len(metadata)], the retrieval
    returns the empty context and overwrites the stored hits with the empty
    list. *)
Theorem search_law_without_hits st query sbert index metadata k :
  Forall (λ idx, Z.of_nat (length metadata) ≤ idx) (index (sbert query) k).2 →
  search_law st query sbert index metadata k = (stored st [] [], Ok []).
Proof.
  intros Hall. rewrite search_law_unfold, dedup_loop_in_range.
  by rewrite filter_past_metadata.
Qed.
End RetrievalEdges.

Lemma search_law_raises_iff_below_range_witness :
  search_law ∅ q_murder unit_sbert corpus_index [rec_41; rec_99] 4
  = (∅, Raise IndexError)
  ∨ ∃ st' context,
      search_law ∅ q_murder unit_sbert corpus_index corpus 4
      = (st', Ok context).
Proof.
  right.
  apply (proj1 (proj1 (search_law_raises_iff_below_range ∅ q_murder
                         unit_sbert corpus_index corpus 4))).
  cbn. repeat constructor; lia.
Defined.

Lemma search_law_ignores_indices_past_metadata_witness :
  search_law ∅ q_murder unit_sbert
    (λ _ _, ([2; 3; 5; 9], [0; 7; 1; 2])) corpus 3
  = search_law ∅ q_murder unit_sbert corpus_index corpus 3.
Proof.
  apply (search_law_ignores_indices_past_metadata ∅ q_murder unit_sbert
           (λ _ _, ([2; 3; 5; 9], [0; 7; 1; 2])) corpus_index corpus 3).
  reflexivity.
Defined.

Lemma search_law_without_hits_witness :
  search_law (vec:=unit) (D:=Z) {[ "llm_context" := SStr (py "[Section 1] x") ]}
    q_murder unit_sbert (λ _ _, ([2; 5], [0; 1])) [] 2
  = (stored {[ "llm_context" := SStr (py "[Section 1] x") ]} [] [], Ok []).
Proof.
  apply (search_law_without_hits
           {[ "llm_context" := SStr (py "[Section 1] x") ]} q_murder
           unit_sbert (λ _ _, ([2; 5], [0; 1])) [] 2).
  cbn. repeat constructor; lia.
Defined.

Section RetrievalCounts.
Context {vec D : Type}.
Implicit Types (st : session_state) (sbert : @encoder vec)
  (index : @vindex vec D).

(** The number of retained hits is the number of different key strings among
    the hits. *)
Theorem retained_count_is_distinct_keys st query sbert index metadata k st'
    context :
  search_law st query sbert index metadata k = (st', Ok context) →
  ∃ hits retained,
    resolve metadata (index (sbert query) k).2 = Ok hits
    ∧ st' !! "retrieved_items" = Some (SItems retained)
    ∧ length retained
      = size (list_to_set (section_key <$> hits) : gset pystr).
Proof.
  intros (hits & Hres & -> & ->)%search_law_Ok.
  exists hits, (keep_first hits ∅ []). split_and!.
  - done.
  - apply stored_retrieved_items.
  - rewrite keep_first_size. f_equal. apply difference_empty_L.
Qed.

(** When the hits have pairwise different key strings, all of them are
    retained, in the order of the search. *)
Theorem distinct_keys_all_retained st query sbert index metadata k hits :
  resolve metadata (index (sbert query) k).2 = Ok hits →
  NoDup (section_key <$> hits) →
  search_law st query sbert index metadata k
  = (stored st hits (join BLANK_LINE (block <$> hits)),
     Ok (join BLANK_LINE (block <$> hits))).
Proof.
  intros Hres Hnd.
  rewrite search_law_unfold, dedup_loop_resolve, Hres.
  cbn [mbind outcome_bind]. by rewrite keep_first_all by set_solver.
Qed.

(** The key string joins section and sub-section with a dash and nothing
    tells a dash of the join from a dash of a field: section [a-b] with
    sub-section [c] and section [a] with sub-section [b-c] have one key, so
    of two such hits only the first is retained. *)
Theorem dash_in_field_merges_keys st (query : pystr) sbert index (k : Z)
    (it1 it2 : item) (a b c : pystr) :
  it1 !! py "section" = Some (VStr (a ++ py "-" ++ b)) →
  it1 !! py "subsection" = Some (VStr c) →
  it2 !! py "section" = Some (VStr a) →
  it2 !! py "subsection" = Some (VStr (b ++ py "-" ++ c)) →
  (index (sbert query) k).2 = [0; 1] →
  section_key it1 = section_key it2
  ∧ (search_law st query sbert index [it1; it2] k).1 !! "retrieved_items"
    = Some (SItems [it1]).
Proof.
  intros H1s H1u H2s H2u Hidx.
  assert (section_key it1 = section_key it2) as Hkey.
  { unfold section_key, get_or. rewrite H1s, H1u, H2s, H2u. cbn.
    by rewrite <- !app_assoc. }
  split; [done|].
  rewrite search_law_unfold, Hidx. cbn [dedup_loop length].
  cbn [Z.of_nat Pos.of_succ_nat Pos.succ Z.ltb Z.compare Pos.compare
         Pos.compare_cont].
  change (py_getitem [it1; it2] 0) with (Ok it1).
  change (py_getitem [it1; it2] 1) with (Ok it2).
  cbn [mbind outcome_bind]. rewrite decide_True by set_solver.
  rewrite decide_False by (rewrite Hkey; set_solver).
  cbn [fst]. apply stored_retrieved_items.
Qed.
End RetrievalCounts.

Lemma retained_count_is_distinct_keys_witness :
  ∃ hits retained,
    resolve chunked (corpus_index (unit_sbert q_murder) 3).2 = Ok hits
    ∧ (search_law ∅ q_murder unit_sbert corpus_index chunked 3).1
        !! "retrieved_items" = Some (SItems retained)
    ∧ length retained
      = size (list_to_set (section_key <$> hits) : gset pystr).
Proof.
  apply (retained_count_is_distinct_keys ∅ q_murder unit_sbert corpus_index
           chunked 3 _ (join BLANK_LINE (block <$> [rec_41; rec_99]))).
  by vm_compute.
Defined.

Lemma distinct_keys_all_retained_witness :
  search_law ∅ q_murder unit_sbert corpus_index corpus 3
  = (stored ∅ corpus (join BLANK_LINE (block <$> corpus)),
     Ok (join BLANK_LINE (block <$> corpus))).
Proof.
  apply (distinct_keys_all_retained ∅ q_murder unit_sbert corpus_index
           corpus 3 corpus).
  - reflexivity.
  - apply (bool_decide_unpack (NoDup (section_key <$> corpus))).
    by vm_compute.
Defined.

Lemma dash_in_field_merges_keys_witness :
  let it1 : item := {[ py "section" := VStr (py "1-2");
                       py "subsection" := VStr (py "3") ]} in
  let it2 : item := {[ py "section" := VStr (py "1");
                       py "subsection" := VStr (py "2-3") ]} in
  section_key it1 = section_key it2
  ∧ (search_law (vec:=unit) (D:=Z) ∅ q_murder unit_sbert
       (λ _ _, ([2; 5], [0; 1])) [it1; it2] 2).1 !! "retrieved_items"
    = Some (SItems [it1]).
Proof.
  intros it1 it2.
  apply (dash_in_field_merges_keys ∅ q_murder unit_sbert
           (λ _ _, ([2; 5], [0; 1])) 2 it1 it2 (py "1") (py "2") (py "3"));
    by vm_compute.
Defined.

(** * Further properties of citations and of the answer parse *)

Lemma format_citation_labels (it : item) :
  format_citation it
  = Ok (match citation_labels it with
        | [] => py "Citation not available"
        | _ :: _ => join (py ", ") (citation_labels it)
        end).
Proof.
  unfold format_citation. rewrite citation_parts_labels.
  cbn [mbind outcome_bind]. by destruct (citation_labels it).
Qed.

(** The citation inside a context block and the citation [format_citation]
    displays are the same text, except for a record with nothing to cite:
    its block opens with empty brackets, and the page shows
    [Citation not available]. *)
Theorem block_citation_has_no_fallback (it : item) :
  ∃ citation,
    chunk_of it
    = Ok (py "[" ++ citation ++ py "] " ++ str_of (get_or it "text" (VStr [])))
    ∧ format_citation it
      = Ok (if bool_decide (citation = [])
            then py "Citation not available" else citation).
Proof.
  exists (join (py ", ") (citation_labels it)). split.
  - apply chunk_of_block.
  - rewrite format_citation_labels. f_equal.
    destruct (citation_labels it) as [|p ps] eqn:E.
    + done.
    + rewrite bool_decide_eq_false_2; [done|].
      apply join_cons_nonempty, (citation_labels_nonempty it).
      rewrite E. left.
Qed.

Section OutOfOrder.
(** A response with [Source:] before [Answer:]. *)
Variables pre mid post : pystr.
Hypothesis pre_A : contains ANSWER pre = false.
Hypothesis pre_S : contains SOURCE pre = false.
Hypothesis mid_A : contains ANSWER mid = false.
Hypothesis mid_S : contains SOURCE mid = false.
Hypothesis post_A : contains ANSWER post = false.
Hypothesis post_S : contains SOURCE post = false.

Let swapped : pystr := pre ++ SOURCE ++ mid ++ ANSWER ++ post.

Lemma find_SOURCE_swapped : find SOURCE swapped = Some (length pre).
Proof. exact (find_first_at _ _ _ _ _ SOURCE_eq S_not_in_S_tail pre_S). Qed.

Lemma find_ANSWER_swapped :
  find ANSWER swapped = Some (length pre + (length SOURCE + length mid))%nat.
Proof.
  unfold swapped.
  change (SOURCE ++ ?t) with (83%N :: (S_tail ++ t)).
  rewrite find_app_absent; [|done|apply S_not_in_A_tail].
  change (83%N :: (S_tail ++ ?t)) with (SOURCE ++ t).
  rewrite (find_app_fresh ANSWER _ _ SOURCE _ ANSWER_eq A_not_in_SOURCE).
  by rewrite (find_first_at _ _ _ _ _ ANSWER_eq A_not_in_A_tail mid_A).
Qed.

Lemma find_SOURCE_after_swapped : find SOURCE (mid ++ ANSWER ++ post) = None.
Proof.
  change (ANSWER ++ post) with (65%N :: (A_tail ++ post)).
  rewrite find_app_absent; [|done|apply A_not_in_S_tail].
  change (65%N :: (A_tail ++ post)) with (ANSWER ++ post).
  rewrite (find_app_fresh SOURCE _ _ ANSWER _ SOURCE_eq S_not_in_ANSWER).
  by rewrite (contains_find_None _ _ post_S).
Qed.

Lemma parse_cut_swapped :
  parse_cut swapped = Some (strip post, strip (mid ++ ANSWER ++ post)).
Proof.
  unfold parse_cut, after_first.
  rewrite (find_Some_contains _ _ _ find_ANSWER_swapped).
  rewrite (find_Some_contains _ _ _ find_SOURCE_swapped). cbn [andb].
  rewrite find_ANSWER_swapped, find_SOURCE_swapped.
  assert (drop (length pre + (length SOURCE + length mid) + length ANSWER)
            swapped = post) as ->.
  { unfold swapped. rewrite !(assoc_L (++)). apply drop_app_length'.
    rewrite !length_app. lia. }
  assert (drop (length pre + length SOURCE) swapped = mid ++ ANSWER ++ post)
    as ->.
  { unfold swapped. by rewrite <- drop_drop, drop_app_length, drop_app_length. }
  unfold before_first.
  by rewrite (contains_find_None _ _ post_A), (contains_find_None _ _ post_S),
    find_SOURCE_after_swapped.
Qed.
End OutOfOrder.

(** With [Source:] before [Answer:], each once, the answer text is what
    follows [Answer:], and the source text is all that follows [Source:],
    the [Answer:] marker and the answer included. *)
Theorem parse_answer_source_first (pre mid post : pystr) :
  contains ANSWER pre = false → contains SOURCE pre = false →
  contains ANSWER mid = false → contains SOURCE mid = false →
  contains ANSWER post = false → contains SOURCE post = false →
  parse_answer (pre ++ SOURCE ++ mid ++ ANSWER ++ post)
  = Ok (Some (strip post, strip (mid ++ ANSWER ++ post))).
Proof.
  intros. rewrite parse_answer_cut. f_equal. by apply parse_cut_swapped.
Qed.

Lemma parse_answer_source_first_witness :
  parse_answer (py "" ++ SOURCE ++ py " Section 41 " ++ ANSWER ++ py " Murder.")
  = Ok (Some (strip (py " Murder."),
              strip (py " Section 41 " ++ ANSWER ++ py " Murder."))).
Proof.
  exact (parse_answer_source_first (py "") (py " Section 41 ") (py " Murder.")
           eq_refl eq_refl eq_refl eq_refl eq_refl eq_refl).
Defined.

(** What the page shows for a model response: the raw response when a marker
    is missing; otherwise the answer text, followed by a rule and the source
    line unless the source text is empty or mentions [Not specified]. It
    never raises. *)
Theorem render_answer_shows (answer answer_text source_text : pystr) :
  (contains ANSWER answer = false ∨ contains SOURCE answer = false →
   render_answer answer = Ok [answer])
  ∧ (parse_cut answer = Some (answer_text, source_text) →
     (source_text = [] ∨ contains (py "Not specified") source_text = true →
      render_answer answer = Ok [answer_text])
     ∧ (source_text ≠ [] →
        contains (py "Not specified") source_text = false →
        render_answer answer
        = Ok [answer_text; py "---"; py "**Source:** " ++ source_text]))
  ∧ is_ok (render_answer answer).
Proof.
  unfold render_answer. rewrite parse_answer_cut. cbn [mbind outcome_bind].
  split_and!.
  - unfold parse_cut. by intros [-> | ->]; rewrite ?andb_false_r.
  - intros ->. split.
    + intros [-> | ->]; [done|]. by destruct source_text.
    + intros Hne ->. by destruct source_text.
  - destruct (parse_cut answer) as [[a s]|]; [|by eexists].
    destruct (_ && _); by eexists.
Qed.

Lemma render_answer_shows_witness :
  render_answer (py "Answer: Theft is punishable. Source: Section 241")
  = Ok [py "Theft is punishable."; py "---"; py "**Source:** Section 241"].
Proof.
  apply (proj2 (proj1 (proj2 (render_answer_shows
           (py "Answer: Theft is punishable. Source: Section 241")
           (py "Theft is punishable.") (py "Section 241"))) eq_refl));
    by vm_compute.
Defined.

(** * Properties of the prompt and of the page *)

Lemma startswith_app_l m s t :
  startswith m s = true → startswith m (s ++ t) = true.
Proof.
  revert s. induction m as [|a m IH]; intros s; [done|].
  destruct s as [|b s]; [done|]. simpl. case_decide; [apply IH|done].
Qed.

Lemma contains_app_l m s t :
  contains m s = true → contains m (s ++ t) = true.
Proof.
  unfold contains. induction s as [|c s IH]; cbn [find app].
  - destruct (startswith m []) eqn:Hm; [|done]. intros _.
    destruct m; [|done]. by destruct t.
  - destruct (startswith m (c :: s)) eqn:Hs.
    + intros _. change (c :: s ++ t) with ((c :: s) ++ t).
      by rewrite startswith_app_l.
    + destruct (find m s); [|done]. intros _.
      destruct (startswith m (c :: s ++ t)); [done|].
      specialize (IH eq_refl). by destruct (find m (s ++ t)).
Qed.

Lemma contains_app_r m p t :
  contains m t = true → contains m (p ++ t) = true.
Proof.
  unfold contains. intros Ht. induction p as [|c p IH]; [done|].
  cbn [find app]. destruct (startswith m (c :: p ++ t)); [done|].
  by destruct (find m (p ++ t)).
Qed.

Lemma contains_infix m p t : contains m (p ++ m ++ t) = true.
Proof.
  apply contains_app_r. unfold contains. by rewrite find_here.
Qed.

(** The one message [ask_llm] sends holds the law text, the question and the
    refusal sentence word for word; its answer is the first choice of the
    response, an [IndexError] when the response has no choice, and the
    client's failure when the client fails. *)
Theorem ask_llm_prompt (client : chat_client) (context question : pystr) :
  let prompt := build_prompt context question in
  let request := {| model := LLM_MODEL; messages := [(py "user", prompt)];
                    temperature := 0; max_tokens := 350 |} in
  contains context prompt = true
  ∧ contains question prompt = true
  ∧ contains REFUSAL prompt = true
  ∧ (∀ c, client request = Crash c →
       ask_llm client context question = Crash c)
  ∧ (client request = Done [] →
       ask_llm client context question = Crash (Exn IndexError))
  ∧ (∀ first rest, client request = Done (first :: rest) →
       ask_llm client context question = Done first).
Proof.
  intros prompt request. split_and!.
  - unfold prompt, build_prompt. apply contains_app_r.
    apply (contains_infix context []).
  - unfold prompt, build_prompt. do 3 apply contains_app_r.
    apply (contains_infix question []).
  - unfold prompt, build_prompt. apply contains_app_l. by vm_compute.
  - intros c Hc. unfold ask_llm. fold prompt. fold request. by rewrite Hc.
  - intros Hc. unfold ask_llm. fold prompt. fold request. by rewrite Hc.
  - intros first rest Hc. unfold ask_llm. fold prompt. fold request.
    rewrite Hc. cbn [mbind run_bind]. by rewrite (py_getitem_0 _ first).
Qed.

Lemma ask_llm_prompt_witness :
  ask_llm (λ _, Done []) (py "[Section 41] Murder is...") q_murder
  = Crash (Exn IndexError).
Proof.
  exact (proj1 (proj2 (proj2 (proj2 (proj2
           (ask_llm_prompt (λ _, Done []) (py "[Section 41] Murder is...")
              q_murder))))) eq_refl).
Defined.

Lemma set_default_lookup name v st (other : string) :
  set_default name v st !! other
  = match st !! other with
    | Some w => Some w
    | None => if decide (name = other) then Some v else None
    end.
Proof.
  unfold set_default. destruct (st !! name) as [w|] eqn:Hn.
  - destruct (st !! other) eqn:Ho; [done|].
    case_decide; [congruence|done].
  - rewrite lookup_insert. case_decide as Heq.
    + subst. by rewrite Hn.
    + by destruct (st !! other).
Qed.

(** The defaults of a run never replace what an earlier run stored: every
    entry of the session state is kept, the three entries the page reads are
    there afterwards, and nothing else is added. *)
Theorem init_session_state_keeps_entries (st : session_state) :
  (∀ (name : string) v, st !! name = Some v →
     init_session_state st !! name = Some v)
  ∧ is_Some (init_session_state st !! "user_query")
  ∧ is_Some (init_session_state st !! "retrieved_items")
  ∧ is_Some (init_session_state st !! "llm_context")
  ∧ (∀ name : string, name ≠ "user_query" → name ≠ "retrieved_items" →
     name ≠ "llm_context" → init_session_state st !! name = st !! name)
  ∧ init_session_state (init_session_state st) = init_session_state st.
Proof.
  assert (∀ (st : session_state) (name : string) v, st !! name = Some v →
            init_session_state st !! name = Some v) as Hkeep.
  { intros st0 name v H. unfold init_session_state.
    rewrite !set_default_lookup. by rewrite H. }
  assert (∀ st : session_state,
            is_Some (init_session_state st !! "user_query")
            ∧ is_Some (init_session_state st !! "retrieved_items")
            ∧ is_Some (init_session_state st !! "llm_context")) as Hthere.
  { intros st0. unfold init_session_state. rewrite !set_default_lookup.
    split_and!; repeat (case_match; simplify_eq; try done). }
  destruct (Hthere st) as (Hq & Hr & Hc).
  split; [apply Hkeep|]. do 3 (split; [done|]). split.
  - intros name H1 H2 H3. unfold init_session_state.
    rewrite !set_default_lookup. destruct (st !! name); [done|].
    by rewrite !decide_False.
  - apply map_eq. intros name.
    destruct (init_session_state st !! name) as [v|] eqn:Hv.
    + by apply Hkeep.
    + unfold init_session_state at 1. rewrite !set_default_lookup, Hv.
      destruct Hq as [? Hq], Hr as [? Hr], Hc as [? Hc].
      repeat case_decide; simplify_eq; congruence.
Qed.

Lemma init_session_state_keeps_entries_witness :
  init_session_state {[ "llm_context" := SStr (py "[Section 41] Murder is...") ]}
    !! "llm_context"
  = Some (SStr (py "[Section 41] Murder is...")).
Proof.
  apply (proj1 (init_session_state_keeps_entries
                  {[ "llm_context" := SStr (py "[Section 41] Murder is...") ]})).
  reflexivity.
Defined.

(** The quoted text under a retrieved section: a text of at most 300
    characters is shown whole, a longer one is cut to its first 300
    characters followed by three dots, so the line never exceeds 305
    characters; a record without a text gives the bare quote mark. *)
Theorem text_preview_of_string (it : item) (s : pystr) :
  get_or it "text" (VStr []) = VStr s →
  ∃ preview,
    text_preview it = Done preview
    ∧ (length preview ≤ 305)%nat
    ∧ ((length s ≤ 300)%nat → preview = py "> " ++ s)
    ∧ ((300 < length s)%nat → preview = py "> " ++ take 300 s ++ py "...").
Proof.
  intros Ht. unfold text_preview. rewrite Ht. cbn [py_len mbind run_bind].
  assert (length (py "> ") = 2%nat) as Hquote by done.
  assert (length (py "...") = 3%nat) as Hdots by done.
  case_decide as Hlen.
  - eexists. split; [done|]. split_and!.
    + rewrite !length_app, length_take, Hquote, Hdots. lia.
    + lia.
    + done.
  - eexists. split; [done|]. split_and!.
    + cbn [str_of]. rewrite length_app, Hquote. lia.
    + done.
    + lia.
Qed.

Lemma text_preview_of_string_witness :
  ∃ preview,
    text_preview rec_41 = Done preview
    ∧ (length preview ≤ 305)%nat
    ∧ ((length (py "Murder is...") ≤ 300)%nat →
       preview = py "> " ++ py "Murder is...")
    ∧ ((300 < length (py "Murder is..."))%nat →
       preview = py "> " ++ take 300 (py "Murder is...") ++ py "...").
Proof. apply (text_preview_of_string rec_41 (py "Murder is...")). reflexivity. Defined.

Lemma format_citation_ok (it : item) : ∃ c, format_citation it = Ok c.
Proof. rewrite format_citation_labels. by eexists. Qed.

Lemma text_preview_has_text it :
  has_text it → ∃ p, text_preview it = Done p.
Proof.
  intros [s Hs]. unfold text_preview. rewrite Hs. cbn [py_len mbind run_bind].
  case_decide; by eexists.
Qed.

Lemma text_preview_no_text it :
  ¬ has_text it → text_preview it = Crash TypeError.
Proof.
  intros Hno. unfold text_preview.
  destruct (get_or it "text" (VStr [])) as [| | |s] eqn:Ht; try done.
  exfalso. apply Hno. by exists s.
Qed.

Lemma show_item_has_text it :
  has_text it →
  ∃ t, show_item it = Ui t (Done tt) ∧ Forall is_Markdown t.
Proof.
  intros Ht. unfold show_item.
  destruct (format_citation_ok it) as [c ->].
  destruct (text_preview_has_text it Ht) as [p ->].
  eexists. split; [reflexivity|].
  repeat constructor; by eexists.
Qed.

Lemma show_item_no_text it :
  ¬ has_text it →
  ∃ t, show_item it = Ui t (Crash TypeError) ∧ Forall is_Markdown t.
Proof.
  intros Ht. unfold show_item.
  destruct (format_citation_ok it) as [c ->].
  rewrite (text_preview_no_text it Ht).
  eexists. split; [reflexivity|].
  repeat constructor; by eexists.
Qed.

Lemma has_text_dec it : has_text it ∨ ¬ has_text it.
Proof.
  unfold has_text. destruct (get_or it "text" (VStr [])) as [| | |s].
  1-3: right; by intros [? [=]].
  left. by exists s.
Qed.

Lemma show_items_shape items :
  ∃ t r, show_items items = Ui t r
    ∧ Forall is_Markdown t
    ∧ (Forall has_text items → r = Done tt)
    ∧ (Exists (λ it, ¬ has_text it) items → r = Crash TypeError).
Proof.
  induction items as [|it rest (t & r & IH & Hmd & Hok & Hbad)].
  - exists [], (Done tt). split_and!; [done|constructor|done|].
    by intros ?%Exists_nil.
  - cbn [show_items]. destruct (has_text_dec it) as [Ht|Ht].
    + destruct (show_item_has_text it Ht) as (t1 & -> & Hmd1).
      rewrite IH. cbn [mbind ui_bind]. exists (t1 ++ t), r. split_and!.
      * done.
      * by apply Forall_app.
      * intros [_ ?]%Forall_cons. by apply Hok.
      * intros [?|?]%Exists_cons; [done|by apply Hbad].
    + destruct (show_item_no_text it Ht) as (t1 & -> & Hmd1).
      cbn [mbind ui_bind]. exists t1, (Crash TypeError). split_and!.
      * done.
      * done.
      * by intros [? _]%Forall_cons.
      * done.
Qed.

(** A retained record whose text is not a string (a JSON null, a number)
    goes through the retrieval, which renders it with [str], but ends the
    page with a [TypeError] in the list of retrieved sections: the answer is
    never asked for, whatever the client. *)
Theorem non_string_text_stops_page (st : session_state)
    (client client' : chat_client) (query : pystr) (it : item) (v : value) :
  it ∈ items_of st "retrieved_items" →
  it !! py "text" = Some v → (∀ s, v ≠ VStr s) →
  chunk_of it
  = Ok (py "[" ++ join (py ", ") (citation_labels it) ++ py "] " ++ str_of v)
  ∧ result_of (show_results st client query) = Crash TypeError
  ∧ show_results st client' query = show_results st client query.
Proof.
  intros Hin Hv Hns.
  assert (¬ has_text it) as Hno.
  { intros [s Hs]. unfold get_or in Hs. rewrite Hv in Hs. cbn in Hs.
    by eapply Hns. }
  split.
  { rewrite chunk_of_block. unfold block, get_or. by rewrite Hv. }
  unfold show_results.
  destruct (items_of st "retrieved_items") as [|it0 rest] eqn:Hitems.
  { by apply elem_of_nil in Hin. }
  destruct (show_items_shape (it0 :: rest)) as (t & r & -> & _ & _ & Hbad).
  rewrite Hbad; [done|].
  apply Exists_exists. by exists it.
Qed.

Lemma non_string_text_stops_page_witness :
  let it : item := {[ py "section" := VStr (py "41"); py "text" := VNone ]} in
  let st := stored ∅ [it] (py "[Section 41] None") in
  chunk_of it
  = Ok (py "[" ++ join (py ", ") (citation_labels it) ++ py "] "
        ++ str_of VNone)
  ∧ result_of (show_results st (λ _, Done [Some (py "Answer: x")]) q_murder)
    = Crash TypeError
  ∧ show_results st (λ _, Crash (ApiError [])) q_murder
    = show_results st (λ _, Done [Some (py "Answer: x")]) q_murder.
Proof.
  intros it st.
  apply (non_string_text_stops_page st _ _ q_murder it VNone).
  - vm_compute. left.
  - by vm_compute.
  - done.
Defined.

Lemma citation_box_html it :
  has_title it → citation_box it = Done (box_html it).
Proof.
  intros [t Ht]. unfold citation_box, box_html, title_of, citation_shown.
  rewrite format_citation_labels, Ht. done.
Qed.

Lemma show_boxes_exact idx items :
  Forall has_title items →
  ∃ boxes,
    show_boxes idx items = Ui boxes (Done tt)
    ∧ length boxes = length items
    ∧ ∀ j, boxes !! j
           = (λ it, InColumn ((idx + j) mod 3) (box_html it)) <$> items !! j.
Proof.
  intros Hall. revert idx.
  induction Hall as [|it rest Hit _ IH]; intros idx.
  - exists []. by split_and!.
  - destruct (IH (S idx)) as (boxes & Hrest & Hlen & Hlook).
    exists (InColumn (idx mod 3) (box_html it) :: boxes). split_and!.
    + cbn [show_boxes]. rewrite (citation_box_html it Hit), Hrest. done.
    + cbn. by rewrite Hlen.
    + intros [|j]; cbn [lookup list_lookup fmap option_fmap option_map].
      * by rewrite Nat.add_0_r.
      * rewrite Hlook. by replace (S idx + j)%nat with (idx + S j)%nat by lia.
Qed.

Lemma render_answer_ok answer : ∃ lines, render_answer answer = Ok lines.
Proof.
  unfold render_answer. rewrite parse_answer_cut. cbn [mbind outcome_bind].
  destruct (parse_cut answer) as [[a s]|]; [|by eexists].
  destruct (_ && _); by eexists.
Qed.

Lemma not_box_Markdown e : is_Markdown e → ¬ is_box e.
Proof. by intros [b ->] (c & b' & [=]). Qed.



Lemma py_set_from_length seen l :
  (length seen ≤ length (py_set_from seen l))%nat
  ∧ (length (py_set_from seen l) ≤ length seen + length l)%nat.
Proof.
  revert seen. induction l as [|x rest IH]; intros seen; cbn [py_set_from].
  - cbn. lia.
  - destruct (py_in x seen).
    + destruct (IH seen). cbn. lia.
    + destruct (IH (seen ++ [x])) as [H1 H2].
      rewrite length_app in H1, H2. cbn in *. lia.
Qed.

Lemma py_set_from_known seen l :
  Forall (λ x, py_in x seen = true) l → py_set_from seen l = seen.
Proof.
  induction 1 as [|x rest Hx _ IH]; [done|].
  cbn [py_set_from]. by rewrite Hx.
Qed.

(** The chapter count of the sidebar and of the footer is at most the number
    of records and at least one for a corpus that is not empty. A record
    without a [chapter] key counts as the chapter that is the empty string:
    a corpus in which no record has a chapter shows one chapter. *)
Theorem count_chapters_bounds (metadata : list item) :
  (count_chapters metadata ≤ length metadata)%nat
  ∧ (metadata ≠ [] → (1 ≤ count_chapters metadata)%nat)
  ∧ (metadata ≠ [] → Forall (λ it : item, it !! py "chapter" = None) metadata →
     count_chapters metadata = 1%nat).
Proof.
  unfold count_chapters. split_and!.
  - destruct (py_set_from_length []
                ((λ it, get_or it "chapter" (VStr [])) <$> metadata)) as [_ H].
    by rewrite length_fmap in H.
  - destruct metadata as [|it rest]; [done|]. intros _.
    rewrite fmap_cons. cbn [py_set_from py_in existsb app].
    destruct (py_set_from_length [get_or it "chapter" (VStr [])]
                ((λ it, get_or it "chapter" (VStr [])) <$> rest)) as [H _].
    exact H.
  - destruct metadata as [|it rest]; [done|]. intros _ Hall.
    apply Forall_cons in Hall as [Hit Hrest].
    rewrite fmap_cons. cbn [py_set_from py_in existsb app].
    unfold get_or at 1. rewrite Hit. cbn [default from_option id].
    rewrite py_set_from_known; [done|].
    apply Forall_fmap. eapply Forall_impl; [exact Hrest|].
    intros it' Hit'. cbn. unfold get_or. by rewrite Hit'.
Qed.

Lemma count_chapters_bounds_witness :
  (1 ≤ count_chapters corpus)%nat ∧ count_chapters corpus = 1%nat.
Proof.
  split.
  - by apply (proj1 (proj2 (count_chapters_bounds corpus))).
  - apply (proj2 (proj2 (count_chapters_bounds corpus))); [done|].
    repeat constructor.
Defined.

Lemma sample_buttons_other questions i clicked st (name : string) :
  name ≠ "user_query" →
  (sample_buttons questions i clicked st).1 !! name = st !! name.
Proof.
  intros Hne. revert i. induction questions as [|q rest IH]; intros i; [done|].
  cbn [sample_buttons]. destruct (clicked i); [|apply IH].
  cbn [fst]. by rewrite lookup_insert_ne.
Qed.

Lemma items_of_stored st retained context :
  items_of (stored st retained context) "retrieved_items" = retained.
Proof. unfold items_of. by rewrite stored_retrieved_items. Qed.

Lemma text_of_stored st retained context :
  text_of (stored st retained context) "llm_context" = context.
Proof. unfold text_of. by rewrite stored_llm_context. Qed.

Lemma truthy_nonempty (s : pystr) : s ≠ [] → truthy (VStr s) = true.
Proof. by destruct s. Qed.

Section PageFacts.
Context {vec D : Type}.
Implicit Types (st : session_state) (sbert : @encoder vec)
  (index : @vindex vec D).

Lemma process_query_searches st (query : pystr) sbert index
    (metadata : list item) (client : chat_client) :
  query ≠ [] → st !! "k_value" = None →
  process_query st true query sbert index metadata client
  = match dedup_loop metadata (index (sbert query) DEFAULT_K).2 ∅ [] with
    | Ok retained =>
        let context := join BLANK_LINE (block <$> retained) in
        let st' := stored (<["user_query" := SStr query]> st) retained
                     context in
        (st', _ ← emit (Spinner SPINNER_SEARCH); show_results st' client query)
    | Raise e =>
        (<["user_query" := SStr query]> st,
         Ui [Spinner SPINNER_SEARCH] (Crash (Exn e)))
    end.
Proof.
  intros Hq Hk. unfold process_query.
  rewrite (truthy_nonempty _ Hq). cbn [andb].
  rewrite lookup_insert_ne by done. rewrite Hk.
  rewrite search_law_unfold.
  by destruct (dedup_loop metadata _ ∅ []).
Qed.

(** A failure of the LLM client ends the page with that failure after the
    retrieval has been stored: the session state holds the query, the
    retained hits and their context, the prompt the client was given is
    built from that context and the query, and the last thing shown is the
    spinner of the answer. *)
Theorem llm_failure_keeps_retrieval st (query : pystr) sbert index
    (metadata : list item) (client : chat_client) (retained : list item)
    (c : crash) :
  query ≠ [] → st !! "k_value" = None →
  dedup_loop metadata (index (sbert query) DEFAULT_K).2 ∅ [] = Ok retained →
  Forall has_text retained →
  client {| model := LLM_MODEL;
            messages :=
              [(py "user",
                build_prompt (join BLANK_LINE (block <$> retained)) query)];
            temperature := 0; max_tokens := 350 |} = Crash c →
  ∃ trace,
    process_query st true query sbert index metadata client
    = (stored (<["user_query" := SStr query]> st) retained
         (join BLANK_LINE (block <$> retained)),
       Ui trace (Crash c))
    ∧ last trace = Some (Spinner SPINNER_ANSWER).
Proof.
  intros Hq Hk Hloop Htext Hclient.
  rewrite process_query_searches, Hloop by done. cbv zeta.
  unfold show_results. rewrite items_of_stored, text_of_stored.
  unfold ask_llm. rewrite Hclient.
  destruct (show_items_shape retained) as (t & r & Hshow & _ & Hok & _).
  rewrite (Hok Htext) in Hshow.
  destruct retained as [|it rest].
  - eexists. split; [reflexivity|done].
  - rewrite Hshow. eexists. split; [reflexivity|].
    cbn [app]. rewrite !last_cons. rewrite last_snoc. done.
Qed.

(** No part of the page writes a [k_value] entry, and without one every
    retrieval asks the index for [DEFAULT_K = 6] neighbors: the number chosen
    on the slider of the sidebar does not reach [search_law]. *)
Theorem retrieval_size_is_default st (search_clicked : bool) (query : pystr)
    sbert index (metadata : list item) (client : chat_client)
    (clicked : nat → bool) :
  init_session_state st !! "k_value" = st !! "k_value"
  ∧ (sample_buttons sample_questions 0 clicked st).1 !! "k_value"
    = st !! "k_value"
  ∧ (process_query st search_clicked query sbert index metadata client).1
      !! "k_value" = st !! "k_value"
  ∧ (st !! "k_value" = None → search_clicked = true → query ≠ [] →
     (process_query st search_clicked query sbert index metadata client).1
     = (search_law (<["user_query" := SStr query]> st) query sbert index
          metadata 6).1).
Proof.
  split_and!.
  - unfold init_session_state. rewrite !set_default_lookup.
    destruct (st !! "k_value"); [done|]. by rewrite !decide_False.
  - by apply sample_buttons_other.
  - unfold process_query.
    destruct (search_clicked && truthy (VStr query)).
    + destruct (<["user_query" := SStr query]> st !! "k_value") eqn:Hk.
      * cbn [fst]. by rewrite lookup_insert_ne.
      * rewrite search_law_unfold.
        destruct (dedup_loop metadata _ ∅ []); cbn [fst].
        -- rewrite stored_other by done. by rewrite lookup_insert_ne.
        -- by rewrite lookup_insert_ne.
    + by destruct (search_clicked && negb (truthy (VStr query))).
  - intros Hk -> Hq. rewrite process_query_searches by done.
    rewrite search_law_unfold. change DEFAULT_K with 6.
    by destruct (dedup_loop metadata _ ∅ []).
Qed.
End PageFacts.

Lemma llm_failure_keeps_retrieval_witness :
  ∃ trace,
    process_query ∅ true q_murder unit_sbert corpus_index corpus
      (λ _, Crash (ApiError (py "timeout")))
    = (stored (<["user_query" := SStr q_murder]> ∅) corpus
         (join BLANK_LINE (block <$> corpus)),
       Ui trace (Crash (ApiError (py "timeout"))))
    ∧ last trace = Some (Spinner SPINNER_ANSWER).
Proof.
  apply (llm_failure_keeps_retrieval ∅ q_murder unit_sbert corpus_index
           corpus (λ _, Crash (ApiError (py "timeout"))) corpus).
  - done.
  - done.
  - by vm_compute.
  - repeat constructor; by eexists.
  - done.
Defined.

Lemma retrieval_size_is_default_witness :
  (process_query ∅ true q_murder unit_sbert corpus_index corpus
     (λ _, Done [Some (py "Answer: x Source: y")])).1
  = (search_law (<["user_query" := SStr q_murder]> ∅) q_murder unit_sbert
       corpus_index corpus 6).1.
Proof.
  apply (proj2 (proj2 (proj2
           (retrieval_size_is_default ∅ true q_murder unit_sbert corpus_index
              corpus (λ _, Done [Some (py "Answer: x Source: y")])
              (λ _, false))))); done.
Defined.
